(** * The data pipeline of the patent dashboard (dashboard.py)

    A shallow embedding of [preprocess_data], [expand_data],
    [aggregate_data], [create_heatmap_data] and
    [analyze_problem_solution_data], and the properties of them that the
    specification states.

    Modelling conventions.
    - A Python [str] is its sequence of code points ([list N]).
    - A cell of an input table is a [value]: a string, an integer, a list
      of strings (what [str.split] leaves in a cell) or the missing value
      (the float NaN, NaT in a column of dates).
    - The dtype of a column is the one pandas infers from its cells, as
      [read_csv] and [read_excel] do for the uploaded file: [object] for
      a column with a string or a list in it and for a column of no
      cells, a numeric dtype for a column of numbers and missing values
      only.  The [.str] accessor raises on a numeric column.
    - A row is a finite map from column names to cells; a table is its
      set of column names and its rows.
    - A function that catches every exception, reports it and returns
      [None] is a function into [option]; [None] is that branch.
    - [pd.to_datetime] is not part of the program: the conversion of the
      date column to years is a parameter of [preprocess_data].
    - The tables computed by the aggregation have a schema fixed by the
      code; they are lists of typed rows.
    - The cells of a heatmap matrix are [float64] numbers: pandas casts
      the values to [float64] and computes the mean of a group in that
      arithmetic, which is that of [SpecFloat] at 53 bits. *)

From stdpp Require Import base option list gmap sorting strings.
From Stdlib Require Import ZArith NArith Lia SpecFloat.

#[local] Open Scope N_scope.

(** ** Python strings *)

Abbreviation pystr := (list N).

(** An ASCII literal as a Python string. *)
Fixpoint py (s : string) : pystr :=
  match s with
  | EmptyString => []
  | String a s' => Ascii.N_of_ascii a :: py s'
  end.

Definition comma : N := 44.
(** [U+25B2] and [U+25BC], the two marks removed from applicant names. *)
Definition marker_up : N := 0x25B2.
Definition marker_down : N := 0x25BC.

(** [str.isspace] on one code point: what [str.strip()] removes. *)
Definition is_space (c : N) : bool :=
  ((0x09 <=? c) && (c <=? 0x0D)) || ((0x1C <=? c) && (c <=? 0x20))
  || (c =? 0x85) || (c =? 0xA0) || (c =? 0x1680)
  || ((0x2000 <=? c) && (c <=? 0x200A))
  || (c =? 0x2028) || (c =? 0x2029) || (c =? 0x202F) || (c =? 0x205F)
  || (c =? 0x3000).

(** First code points of the runs of ten decimal digits (general category
    Nd, Unicode 14), which is what [\d] matches in a [str] pattern. *)
Definition decimal_zeros : list N :=
  [48; 1632; 1776; 1984; 2406; 2534; 2662; 2790; 2918; 3046; 3174; 3302;
   3430; 3558; 3664; 3792; 3872; 4160; 4240; 6112; 6160; 6470; 6608; 6784;
   6800; 6992; 7088; 7232; 7248; 42528; 43216; 43264; 43472; 43504; 43600;
   44016; 65296; 66720; 68912; 69734; 69872; 69942; 70096; 70384; 70736;
   70864; 71248; 71360; 71472; 71904; 72016; 72784; 73040; 73120; 92768;
   92864; 93008; 120782; 120792; 120802; 120812; 120822; 123200; 123632;
   125264; 130032].

Definition is_decimal (c : N) : bool :=
  existsb (λ z, (z <=? c) && (c <? z + 10)) decimal_zeros.

Fixpoint lstrip (s : pystr) : pystr :=
  match s with
  | [] => []
  | c :: s' => if is_space c then lstrip s' else s
  end.

Definition rstrip (s : pystr) : pystr := reverse (lstrip (reverse s)).

(** [s.strip()] *)
Definition strip (s : pystr) : pystr := rstrip (lstrip s).

(** Puts [c] in front of the first piece of a split. *)
Definition push_char (c : N) (pieces : list pystr) : list pystr :=
  match pieces with
  | [] => [[c]]
  | p :: ps => (c :: p) :: ps
  end.

(** [s.split(',')] *)
Fixpoint split_comma (s : pystr) : list pystr :=
  match s with
  | [] => [[]]
  | c :: s' =>
      if c =? comma then [] :: split_comma s' else push_char c (split_comma s')
  end.

(** The lookahead [(?!\d)] at the rest of the text. *)
Definition not_before_digit (rest : pystr) : bool :=
  match rest with
  | [] => true
  | d :: _ => negb (is_decimal d)
  end.

(** [re.split(r',(?!\d)', s)] *)
Fixpoint split_fi (s : pystr) : list pystr :=
  match s with
  | [] => [[]]
  | c :: s' =>
      if (c =? comma) && not_before_digit s'
      then [] :: split_fi s'
      else push_char c (split_fi s')
  end.

(** [re.sub('▲|▼', '', s)] *)
Definition remove_markers (s : pystr) : pystr :=
  filter (λ c, c ≠ marker_up ∧ c ≠ marker_down) s.

(** The truth value of [item.strip()]. *)
Definition nonblank (item : pystr) : Prop := strip item ≠ [].

#[global] Instance nonblank_dec item : Decision (nonblank item).
Proof. unfold nonblank. apply _. Defined.

(** ** Cells, rows and tables *)

Inductive value :=
  | VNaN
  | VInt (z : Z)
  | VStr (s : pystr)
  | VList (l : list pystr).

#[global] Instance value_eq_dec : EqDecision value.
Proof. solve_decision. Defined.

(** A table: its column labels and its rows, each row a map from labels
    to cells (a [Series] from [iterrows]). *)
Record DataFrame := mkDataFrame {
  columns : gset pystr;
  rows : list (gmap pystr value)
}.

(** The column labels the program names. *)
Definition col_date : pystr := [0x51FA; 0x9858; 0x65E5].
Definition col_applicant : pystr :=
  [0x51FA; 0x9858; 0x4EBA; 0x2F; 0x6A29; 0x5229; 0x8005].
Definition col_FI : pystr := py "FI".
Definition col_year : pystr := py "year".
Definition col_applicants_list : pystr := py "applicants_list".
Definition col_fi_list : pystr := py "fi_list".
Definition col_problem : pystr := [0x8AB2; 0x984C; 0x5206; 0x985E].
Definition col_solution : pystr :=
  [0x89E3; 0x6C7A; 0x624B; 0x6BB5; 0x5206; 0x985E].

Definition cell (c : pystr) (row : gmap pystr value) : value :=
  default VNaN (row !! c).

(** [row[c]], [None] for the [KeyError]. *)
Definition item (c : pystr) (row : gmap pystr value) : option value :=
  row !! c.

(** [df[c]]: the cells of a column, [None] for the [KeyError]. *)
Definition get_column (c : pystr) (df : DataFrame) : option (list value) :=
  if decide (c ∈ columns df) then Some (cell c <$> rows df) else None.

(** [df[c] = vals]: the assignment aligns on the row index; a row the
    series has no entry for receives the missing value. *)
Definition set_column (c : pystr) (vals : list value) (df : DataFrame)
  : DataFrame :=
  {| columns := {[c]} ∪ columns df;
     rows := imap (λ i row, <[c := default VNaN (vals !! i)]> row) (rows df) |}.

(** [pd.DataFrame(rs)] of a list of rows. *)
Definition frame_of_rows (rs : list (gmap pystr value)) : DataFrame :=
  {| columns := ⋃ (dom <$> rs); rows := rs |}.

(** The [.str] accessor of a series: it raises [AttributeError] unless
    the series is of dtype [object] and holds something else than
    numbers.  That is the case when a cell is a string or a list, and
    when there is no cell at all; a series of numbers and missing values
    only is numeric. *)
Definition holds_text (v : value) : bool :=
  match v with
  | VStr _ | VList _ => true
  | VNaN | VInt _ => false
  end.

Definition str_accessor (series : list value) : option unit :=
  if decide (series = [] ∨ Exists holds_text series) then Some () else None.

(** *** Operations on one cell of a series *)

(** [.str.replace('▲|▼', '', regex=True)] *)
Definition str_replace_markers (v : value) : value :=
  match v with
  | VStr s => VStr (remove_markers s)
  | _ => VNaN
  end.

(** [.str.split(',')] *)
Definition str_split_comma (v : value) : value :=
  match v with
  | VStr s => VList (split_comma s)
  | _ => VNaN
  end.

(** [.fillna('')] *)
Definition fillna_empty (v : value) : value :=
  match v with
  | VNaN => VStr []
  | _ => v
  end.

(** [.str.split(r',(?!\d)', regex=True)] *)
Definition str_split_fi (v : value) : value :=
  match v with
  | VStr s => VList (split_fi s)
  | _ => VNaN
  end.

(** Iteration over a cell: a list gives its elements, a string its
    characters, anything else raises [TypeError]. *)
Definition iter_value (v : value) : option (list pystr) :=
  match v with
  | VList l => Some l
  | VStr s => Some ((λ c, [c]) <$> s)
  | VNaN | VInt _ => None
  end.

(** [lambda x: [item for item in x if item.strip()]] *)
Definition keep_nonblank (x : value) : option value :=
  items ← iter_value x; Some (VList (filter nonblank items)).

(** What lines S3.4 make of one cell of the [FI] column. *)
Definition fi_list_cell (v : value) : option value :=
  keep_nonblank (str_split_fi (fillna_empty v)).

(** ** preprocess_data *)

(** Statements that update the table they are given in place and may
    raise: the table is kept as it was when the exception occurred. *)
Definition Update (A : Type) : Type := DataFrame → DataFrame * option A.

Definition read_col (c : pystr) : Update (list value) :=
  λ df, (df, get_column c df).
Definition assign_col (c : pystr) (vals : list value) : Update unit :=
  λ df, (set_column c vals df, Some tt).
Definition or_raise {A} (o : option A) : Update A := λ df, (df, o).

Definition year_cell (y : option Z) : value := from_option VInt VNaN y.

Section preprocess.
#[local] Instance update_ret : MRet Update := λ A a df, (df, Some a).
#[local] Instance update_bind : MBind Update := λ A B k m df,
  match m df with
  | (df', Some a) => k a df'
  | (df', None) => (df', None)
  end.

(** [pd.to_datetime(col).dt.year]: the years of a date column, [None]
    in a cell for a missing date, [None] as a whole when a date cannot
    be parsed. *)
Variable to_datetime_year : list value → option (list (option Z)).

(** The result [(df', Some ())] stands for [return df] with the table
    now [df']; [(df', None)] for the [except] branch.  The second [.str]
    on the applicant column reads the [object] series that the first one
    has left, of strings and missing values, and does not raise. *)
Definition preprocess_data : Update unit :=
  dates ← read_col col_date;
  years ← or_raise (to_datetime_year dates);
  assign_col col_year (year_cell <$> years);;
  applicant ← read_col col_applicant;
  or_raise (str_accessor applicant);;
  assign_col col_applicant (str_replace_markers <$> applicant);;
  applicant ← read_col col_applicant;
  assign_col col_applicants_list (str_split_comma <$> applicant);;
  fi ← read_col col_FI;
  or_raise (str_accessor (fillna_empty <$> fi));;
  assign_col col_fi_list (str_split_fi <$> (fillna_empty <$> fi));;
  fi_list ← read_col col_fi_list;
  kept ← or_raise (mapM keep_nonblank fi_list);
  assign_col col_fi_list kept.
End preprocess.

(** ** expand_data *)

(** [for x in items: out.append(body x)] *)
Definition for_each {A B} (items : list A) (body : A → B) : list B :=
  body <$> items.

(** The inner loop of S4.1 for one row. *)
Definition expand_applicant (row : gmap pystr value)
  : option (list (gmap pystr value)) :=
  v ← item col_applicants_list row;
  items ← iter_value v;
  Some (for_each items (λ applicant,
          <[col_applicant := VStr (strip applicant)]> row)).

(** The inner loop of S4.2 for one row. *)
Definition expand_fi (row : gmap pystr value)
  : option (list (gmap pystr value)) :=
  v ← item col_fi_list row;
  items ← iter_value v;
  Some (for_each items (λ fi, <[col_FI := VStr (strip fi)]> row)).

(** The two nested loops of S4.3 for one row; [row['fi_list']] is read
    once for every applicant. *)
Definition expand_applicant_fi (row : gmap pystr value)
  : option (list (gmap pystr value)) :=
  va ← item col_applicants_list row;
  applicants ← iter_value va;
  mjoin <$> mapM (λ applicant,
    vf ← item col_fi_list row;
    fis ← iter_value vf;
    Some (for_each fis (λ fi,
            <[col_FI := VStr (strip fi)]>
              (<[col_applicant := VStr (strip applicant)]> row))))
    applicants.

(** [None] stands for the [except] branch, which returns
    [(None, None, None)]. *)
Definition expand_data (df : DataFrame)
  : option (DataFrame * DataFrame * DataFrame) :=
  expanded_applicants ← mapM expand_applicant (rows df);
  expanded_fi ← mapM expand_fi (rows df);
  expanded_applicants_fi ← mapM expand_applicant_fi (rows df);
  Some (frame_of_rows (mjoin expanded_applicants),
        frame_of_rows (mjoin expanded_fi),
        frame_of_rows (mjoin expanded_applicants_fi)).

#[local] Close Scope N_scope.

(** ** Labels, counting and grouping *)

(** A label of a computed table: a hashable, non-missing cell. *)
Inductive key :=
  | KInt (z : Z)
  | KStr (s : pystr).

#[global] Instance key_eq_dec : EqDecision key.
Proof. solve_decision. Defined.

(** Python's order on strings: lexicographic on the code points. *)
Fixpoint str_leb (a b : pystr) : bool :=
  match a, b with
  | [], _ => true
  | _ :: _, [] => false
  | x :: a', y :: b' =>
      if (x <? y)%N then true else if (x =? y)%N then str_leb a' b' else false
  end.

(** The order in which the keys of a grouping are laid out: numbers by
    value, strings by [str_leb], numbers before strings. *)
Definition key_leb (a b : key) : bool :=
  match a, b with
  | KInt x, KInt y => (x <=? y)%Z
  | KInt _, KStr _ => true
  | KStr _, KInt _ => false
  | KStr x, KStr y => str_leb x y
  end.

Definition key_le (a b : key) : Prop := key_leb a b = true.

(** The order of the key pairs of a grouping by two columns. *)
Definition pair_le (p q : key * key) : Prop :=
  if decide (p.1 = q.1) then key_le p.2 q.2 else key_le p.1 q.1.

#[global] Instance key_le_dec a b : Decision (key_le a b).
Proof. unfold key_le. apply _. Defined.

#[global] Instance pair_le_dec p q : Decision (pair_le p q).
Proof. unfold pair_le. destruct (decide (p.1 = q.1)); apply _. Defined.

(** A cell as a label: [Some None] for the missing value, which counting
    and grouping skip, [None] for a list, which is not hashable and makes
    them raise [TypeError]. *)
Definition as_label (v : value) : option (option key) :=
  match v with
  | VNaN => Some None
  | VInt z => Some (Some (KInt z))
  | VStr s => Some (Some (KStr s))
  | VList _ => None
  end.

Definition value_of_key (k : key) : value :=
  match k with
  | KInt z => VInt z
  | KStr s => VStr s
  end.

(** The distinct elements of a list, in the order of their first
    occurrence. *)
Fixpoint distinct {A} `{EqDecision A} (l : list A) : list A :=
  match l with
  | [] => []
  | x :: l' => x :: filter (λ y, y ≠ x) (distinct l')
  end.

Definition occurrences {A} `{EqDecision A} (x : A) (l : list A) : nat :=
  length (filter (λ y, y = x) l).

Definition tally {A} `{EqDecision A} (l : list A) : list (A * nat) :=
  (λ x, (x, occurrences x l)) <$> distinct l.

(** The orders the tables are sorted by. *)
Definition count_ge {A} (a b : A * nat) : Prop := b.2 ≤ a.2.
Definition by_key_le (a b : key * nat) : Prop := key_le a.1 b.1.
Definition by_pair_le (a b : key * key * nat) : Prop := pair_le a.1 b.1.

#[global] Instance count_ge_dec {A} (a b : A * nat) : Decision (count_ge a b).
Proof. unfold count_ge. apply _. Defined.
#[global] Instance by_key_le_dec a b : Decision (by_key_le a b).
Proof. unfold by_key_le. apply _. Defined.
#[global] Instance by_pair_le_dec a b : Decision (by_pair_le a b).
Proof. unfold by_pair_le. apply _. Defined.

(** A stable sort: equal elements keep their order. *)
Fixpoint insert_sorted {A} (R : relation A) `{∀ x y, Decision (R x y)}
    (x : A) (l : list A) : list A :=
  match l with
  | [] => [x]
  | y :: l' => if decide (R x y) then x :: l else y :: insert_sorted R x l'
  end.

Definition stable_sort {A} (R : relation A) `{∀ x y, Decision (R x y)}
    (l : list A) : list A :=
  foldr (insert_sorted R) [] l.

(** [col.value_counts().reset_index()]: missing values are skipped, the
    rows are ordered by decreasing count.  Equal counts are left in the
    order of first occurrence; pandas' default sort does not promise it,
    and no statement below depends on it. *)
Definition value_counts (col : list value) : option (list (key * nat)) :=
  labels ← mapM as_label col;
  Some (stable_sort count_ge (tally (omap id labels))).

Definition is_int (k : key) : bool :=
  match k with
  | KInt _ => true
  | KStr _ => false
  end.

(** [t.sort_values(first column)]: ascending; comparing a number with a
    string raises [TypeError]. *)
Definition sort_values (t : list (key * nat)) : option (list (key * nat)) :=
  if forallb is_int t.*1 || forallb (negb ∘ is_int) t.*1
  then Some (merge_sort by_key_le t)
  else None.

(** A row of a table grouped by two columns. *)
Record group_row := GroupRow {
  key1 : key;
  key2 : key;
  counts : nat
}.

#[global] Instance group_row_eq_dec : EqDecision group_row.
Proof. solve_decision. Defined.

(** The pairs of labels of two columns, without the rows that miss one. *)
Definition label_pairs (labels1 labels2 : list (option key))
  : list (key * key) :=
  omap (λ p, a ← p.1; b ← p.2; Some (a, b)) (zip labels1 labels2).

(** [df.groupby([c1, c2]).size().reset_index(name='counts')]: rows with
    a missing key are skipped, the groups are ordered by their keys. *)
Definition groupby_size (c1 c2 : pystr) (df : DataFrame)
  : option (list group_row) :=
  col1 ← get_column c1 df;
  col2 ← get_column c2 df;
  labels1 ← mapM as_label col1;
  labels2 ← mapM as_label col2;
  let pairs := label_pairs labels1 labels2 in
  Some ((λ g, GroupRow g.1.1 g.1.2 g.2)
          <$> merge_sort by_pair_le (tally pairs)).

(** ** aggregate_data *)

Record Aggregated := mkAggregated {
  year_counts : list (key * nat);
  applicant_counts : list (key * nat);
  fi_counts : list (key * nat);
  top_applicants : list (key * nat);
  top_fi : list (key * nat);
  top_applicant_ratio : list (key * nat);
  top_fi_ratio : list (key * nat);
  year_top_applicant : list group_row;
  year_top_fi : list group_row;
  top_applicant_top_fi : list group_row;
  top10_applicants : list key;
  top10_fi : list key
}.

Definition others : key := KStr (py "others").

(** [counts[10:][count].sum() if len(counts) > 10 else 0] *)
Definition others_count (table : list (key * nat)) : nat :=
  if decide (10 < length table) then sum_list (drop 10 table).*2 else 0.

(** The copy of the top table, with the [others] row appended when its
    count is positive. *)
Definition with_others (top : list (key * nat)) (others_count : nat)
  : list (key * nat) :=
  if decide (0 < others_count) then top ++ [(others, others_count)] else top.

(** S5.4 to S5.6: the three groupings, before the top-10 filters. *)
Definition year_applicant_group (df_applicants : DataFrame) :=
  groupby_size col_year col_applicant df_applicants.
Definition year_fi_group (df_fi : DataFrame) :=
  groupby_size col_year col_FI df_fi.
Definition applicant_fi_group (df_applicants_fi : DataFrame) :=
  groupby_size col_applicant col_FI df_applicants_fi.

(** [None] stands for the [except] branch. *)
Definition aggregate_data (df df_applicants df_fi df_applicants_fi : DataFrame)
  : option Aggregated :=
  applicant_counts ← get_column col_applicant df_applicants ≫= value_counts;
  fi_counts ← get_column col_FI df_fi ≫= value_counts;
  year_counts ← get_column col_year df ≫= value_counts;
  year_counts ← sort_values year_counts;
  year_applicant_group ← year_applicant_group df_applicants;
  year_fi_group ← year_fi_group df_fi;
  applicant_fi_group ← applicant_fi_group df_applicants_fi;
  let top_applicants := take 10 applicant_counts in
  let top_fi := take 10 fi_counts in
  let top_applicant_ratio :=
    with_others top_applicants (others_count applicant_counts) in
  let top_fi_ratio := with_others top_fi (others_count fi_counts) in
  let top10_applicants := top_applicants.*1 in
  let top10_fi := top_fi.*1 in
  let year_top_applicant :=
    filter (λ g, key2 g ∈ top10_applicants) year_applicant_group in
  let year_top_fi := filter (λ g, key2 g ∈ top10_fi) year_fi_group in
  let top_applicant_top_fi :=
    filter (λ g, key1 g ∈ top10_applicants ∧ key2 g ∈ top10_fi)
           applicant_fi_group in
  Some {| year_counts := year_counts;
          applicant_counts := applicant_counts;
          fi_counts := fi_counts;
          top_applicants := top_applicants;
          top_fi := top_fi;
          top_applicant_ratio := top_applicant_ratio;
          top_fi_ratio := top_fi_ratio;
          year_top_applicant := year_top_applicant;
          year_top_fi := year_top_fi;
          top_applicant_top_fi := top_applicant_top_fi;
          top10_applicants := top10_applicants;
          top10_fi := top10_fi |}.

(** ** create_heatmap_data *)

(** A table with labelled rows and columns. *)
Record Matrix (A : Type) := mkMatrix {
  m_index : list key;
  m_columns : list key;
  m_values : list (list A)
}.
Arguments mkMatrix {A} _ _ _.
Arguments m_index {A} _.
Arguments m_columns {A} _.
Arguments m_values {A} _.

(** The binary64 format of IEEE 754 and its operations, rounding to
    the nearest number, ties to even. *)
Definition prec : Z := 53.
Definition emax : Z := 1024.
Abbreviation float64 := spec_float.

Definition float_zero : float64 := S754_zero false.
Definition float_add : float64 → float64 → float64 := SFadd prec emax.
Definition float_sub : float64 → float64 → float64 := SFsub prec emax.
Definition float_div : float64 → float64 → float64 := SFdiv prec emax.

(** The cast of an [int64] to [float64]. *)
Definition float_of_int (z : Z) : float64 :=
  binary_normalize prec emax z 0 false.

Definition is_nan (x : float64) : bool :=
  match x with
  | S754_nan => true
  | _ => false
  end.

(** [int(x)] for a float with [x.is_integer()]. *)
Definition int_of_float (x : float64) : option Z :=
  match x with
  | S754_zero _ => Some 0%Z
  | S754_finite s m e =>
      let n := cond_Zopp s (Z.pos m) in
      match e with
      | Z.neg p =>
          if (n mod 2 ^ Z.pos p =? 0)%Z then Some (n / 2 ^ Z.pos p)%Z
          else None
      | _ => Some (n * 2 ^ e)%Z
      end
  | S754_infinity _ | S754_nan => None
  end.

(** One step of the loop of pandas' [group_mean] (Kahan's compensated
    summation) on the pair of the running sum and the compensation:
    [y = val - compensation; t = sumx + y;
     compensation = t - sumx - y; sumx = t], the compensation being
    reset to 0 when it is NaN. *)
Definition kahan_step (acc : float64 * float64) (val : float64)
  : float64 * float64 :=
  let y := float_sub val acc.2 in
  let t := float_add acc.1 y in
  let compensation := float_sub (float_sub t acc.1) y in
  (t, if is_nan compensation then float_zero else compensation).

(** The mean of a non-empty group of [int64] values, the default
    aggregation of [pivot_table]: the values are cast to [float64],
    added up in the order of the rows, and the sum is divided by their
    number. *)
Definition mean (vs : list Z) : float64 :=
  let acc := foldl kahan_step (float_zero, float_zero) (float_of_int <$> vs) in
  float_div acc.1 (float_of_int (Z.of_nat (length vs))).

(** The position of a label on an axis. *)
Definition position (k : key) (labels : list key) : option nat :=
  fst <$> list_find (λ x, x = k) labels.

(** [m.reindex(index=index, columns=columns, fill_value=fill_value)] *)
Definition reindex {A} (m : Matrix A) (index columns : list key)
    (fill_value : A) : Matrix A :=
  {| m_index := index;
     m_columns := columns;
     m_values := for_each index (λ r, for_each columns (λ c,
       match position r (m_index m), position c (m_columns m) with
       | Some i, Some j => default fill_value (m_values m !! i ≫= (.!! j))
       | _, _ => fill_value
       end)) |}.

Section heatmap.
(** The rows of [data]; a column of [data] is given by its projection. *)
Context {T : Type}.

(** The group of the rows of [data] at one pair of keys. *)
Definition group_at (data : list T) (row_col col_col : T → key)
    (r c : key) : list T :=
  filter (λ x, row_col x = r ∧ col_col x = c) data.

(** The cell of the pivot table at a pair of keys: the mean of the
    group, [fill_value] for an empty group. *)
Definition cell_at (data : list T) (value_col : T → Z)
    (row_col col_col : T → key) (r c : key) : float64 :=
  match group_at data row_col col_col r c with
  | [] => float_zero
  | group => mean (value_col <$> group)
  end.

(** [data.pivot_table(values=value_col, index=row_col, columns=col_col,
    fill_value=0)]: the axes carry the keys that occur, in order. *)
Definition pivot_table (data : list T) (value_col : T → Z)
    (row_col col_col : T → key) : Matrix float64 :=
  let index := merge_sort key_le (distinct (row_col <$> data)) in
  let cols := merge_sort key_le (distinct (col_col <$> data)) in
  {| m_index := index;
     m_columns := cols;
     m_values := for_each index (λ r, for_each cols (λ c,
       cell_at data value_col row_col col_col r c)) |}.

Definition create_heatmap_data (data : list T) (row_col col_col : T → key)
    (value_col : T → Z) (row_items col_items : list key)
  : Matrix float64 :=
  let pivot_data := pivot_table data value_col row_col col_col in
  reindex pivot_data row_items col_items float_zero.
End heatmap.

(** ** analyze_problem_solution_data *)

(** The two [st.warning] calls of the analysis. *)
Inductive warning :=
  | InsufficientData
  | AnalysisError.

Record Analysis := mkAnalysis {
  problem_counts : list (key * nat);
  solution_counts : list (key * nat);
  cross_tab : Matrix nat;
  year_problem : option (list group_row);
  year_solution : option (list group_row);
  applicant_problem_cross : option (Matrix nat);
  applicant_solution_cross : option (Matrix nat);
  applicant_problem_counts : option (list group_row);
  applicant_solution_counts : option (list group_row);
  top_applicants_for_analysis : option (list key);
  num_problems : nat;
  num_solutions : nat;
  total_records : nat
}.

(** [df[mask]] *)
Definition select (P : gmap pystr value → Prop) `{∀ row, Decision (P row)}
    (df : DataFrame) : DataFrame :=
  {| columns := columns df; rows := filter P (rows df) |}.

Definition populated (subset : list pystr) (row : gmap pystr value) : Prop :=
  Forall (λ c, cell c row ≠ VNaN) subset.

#[global] Instance populated_dec subset row : Decision (populated subset row).
Proof. unfold populated. apply _. Defined.

(** [df.dropna(subset=subset)] *)
Definition dropna (subset : list pystr) (df : DataFrame) : option DataFrame :=
  if decide (Forall (λ c, c ∈ columns df) subset)
  then Some (select (populated subset) df)
  else None.

(** [pd.crosstab(col1, col2, margins=False)] *)
Definition crosstab (col1 col2 : list value) : option (Matrix nat) :=
  labels1 ← mapM as_label col1;
  labels2 ← mapM as_label col2;
  let pairs := label_pairs labels1 labels2 in
  let index := merge_sort key_le (distinct pairs.*1) in
  let cols := merge_sort key_le (distinct pairs.*2) in
  Some {| m_index := index;
          m_columns := cols;
          m_values := for_each index (λ r, for_each cols (λ c,
            occurrences (r, c) pairs)) |}.

(** The five results on applicants, in the order
    [applicant_problem_cross], [applicant_solution_cross],
    [applicant_problem_counts], [applicant_solution_counts],
    [top_applicants_for_analysis]. *)
Definition applicant_results : Type :=
  option (Matrix nat) * option (Matrix nat) * option (list group_row)
  * option (list group_row) * option (list key).

Definition no_applicant_results : applicant_results :=
  (None, None, None, None, None).

Definition analyze_applicants (df_applicants : option DataFrame)
  : option applicant_results :=
  match df_applicants with
  | None => Some no_applicant_results
  | Some df_applicants =>
    if decide (col_problem ∈ columns df_applicants
               ∧ col_solution ∈ columns df_applicants
               ∧ col_applicant ∈ columns df_applicants)
    then
      df_app_filtered ←
        dropna [col_problem; col_solution; col_applicant] df_applicants;
      if decide (0 < length (rows df_app_filtered)) then
        applicant_problem_counts ←
          groupby_size col_applicant col_problem df_app_filtered;
        applicant_solution_counts ←
          groupby_size col_applicant col_solution df_app_filtered;
        ranking ← get_column col_applicant df_app_filtered ≫= value_counts;
        let top_applicants := (take 15 ranking).*1 in
        let df_top_applicants :=
          select (λ row, cell col_applicant row
                         ∈ value_of_key <$> top_applicants)
                 df_app_filtered in
        if decide (0 < length (rows df_top_applicants)) then
          applicants ← get_column col_applicant df_top_applicants;
          problems ← get_column col_problem df_top_applicants;
          solutions ← get_column col_solution df_top_applicants;
          applicant_problem_cross ← crosstab applicants problems;
          applicant_solution_cross ← crosstab applicants solutions;
          Some (Some applicant_problem_cross, Some applicant_solution_cross,
                Some applicant_problem_counts, Some applicant_solution_counts,
                Some top_applicants)
        else
          Some (None, None,
                Some applicant_problem_counts, Some applicant_solution_counts,
                Some top_applicants)
      else Some no_applicant_results
    else Some no_applicant_results
  end.

(** The body of the [try]: [None] when it raises, otherwise what it
    returns and the warnings it shows. *)
Definition analyze_try (df : DataFrame) (df_applicants : option DataFrame)
  : option (option Analysis * list warning) :=
  df_filtered ← dropna [col_problem; col_solution] df;
  if decide (length (rows df_filtered) = 0) then
    Some (None, [InsufficientData])
  else
    problem_counts ← get_column col_problem df_filtered ≫= value_counts;
    solution_counts ← get_column col_solution df_filtered ≫= value_counts;
    problems ← get_column col_problem df_filtered;
    solutions ← get_column col_solution df_filtered;
    cross_tab ← crosstab problems solutions;
    by_year ←
      (if decide (col_year ∈ columns df_filtered) then
         year_problem ← groupby_size col_year col_problem df_filtered;
         year_solution ← groupby_size col_year col_solution df_filtered;
         Some (Some year_problem, Some year_solution)
       else Some (None, None));
    by_applicant ← analyze_applicants df_applicants;
    Some (Some {| problem_counts := problem_counts;
                  solution_counts := solution_counts;
                  cross_tab := cross_tab;
                  year_problem := by_year.1;
                  year_solution := by_year.2;
                  applicant_problem_cross := by_applicant.1.1.1.1;
                  applicant_solution_cross := by_applicant.1.1.1.2;
                  applicant_problem_counts := by_applicant.1.1.2;
                  applicant_solution_counts := by_applicant.1.2;
                  top_applicants_for_analysis := by_applicant.2;
                  num_problems := length problem_counts;
                  num_solutions := length solution_counts;
                  total_records := length (rows df_filtered) |}, []).

(** The result and the warnings shown; [None] is the absent result. *)
Definition analyze_problem_solution_data (df : DataFrame)
    (df_applicants : option DataFrame) : option Analysis * list warning :=
  if decide (col_problem ∉ columns df ∨ col_solution ∉ columns df) then
    (None, [])
  else
    match analyze_try df df_applicants with
    | Some outcome => outcome
    | None => (None, [AnalysisError])
    end.

(** ** get_colors_for_categories *)

Definition COLORS : list pystr :=
  [ py "#8dd3c7"; py "#FFD700"; py "#bebada"; py "#fb8072"; py "#80b1d3";
    py "#fdb462"; py "#b3de69"; py "#fccde5"; py "#d9d9d9"; py "#bc80bd";
    py "#ccebc5"; py "#1f77b4"; py "#ff7f0e"; py "#2ca02c"; py "#d62728";
    py "#9467bd"; py "#8c564b"; py "#e377c2"; py "#7f7f7f"; py "#bcbd22" ].

Section colors.
(** The palettes [Set3] and [Dark24] of [plotly.colors.qualitative]. *)
Variables Set3 Dark24 : list pystr.

Definition get_colors_for_categories (n_categories : nat) : list pystr :=
  if decide (n_categories ≤ length COLORS) then take n_categories COLORS
  else if decide (n_categories ≤ 12) then take n_categories Set3
  else take n_categories Dark24.
End colors.

(** ** main: the tables it computes *)

Definition required_columns : list pystr := [col_date; col_applicant; col_FI].

Definition missing_columns (df : DataFrame) : list pystr :=
  filter (λ col, col ∉ columns df) required_columns.

(** [int(v)] of a cell of the year column, which [preprocess_data] fills
    with integers and missing values: the missing value raises
    [ValueError]; other cells do not occur there and are refused. *)
Definition int_of_year (v : value) : option Z :=
  match v with
  | VInt z => Some z
  | _ => None
  end.

(** The statistics of the overview. *)
Record Statistics := mkStatistics {
  total_patents : nat;
  min_year : Z;
  max_year : Z;
  year_span : nat;
  avg_patents_per_year : nat;
  unique_fi_count : nat
}.

(** Lines 753 to 758.  [years.min()] raises on no year and gives the
    missing value when one year is missing, which [int] refuses. *)
Definition basic_statistics (df_processed : DataFrame)
    (aggregated_data : Aggregated) : option Statistics :=
  col ← get_column col_year df_processed;
  let years := distinct col in
  numbers ← mapM int_of_year years;
  match numbers with
  | [] => None
  | y :: ys =>
      Some {| total_patents := length (rows df_processed);
              min_year := foldr Z.min y ys;
              max_year := foldr Z.max y ys;
              year_span := length years;
              avg_patents_per_year :=
                length (rows df_processed) `div` length years;
              unique_fi_count := length (fi_counts aggregated_data) |}
  end.

(** What [main] has computed when it reaches the end of the heatmap tab. *)
Record Dashboard := mkDashboard {
  df_processed : DataFrame;
  aggregated_data : Aggregated;
  problem_solution_data : option Analysis;
  statistics : Statistics;
  years_sorted : list key;
  applicant_year_matrix : Matrix float64;
  fi_year_matrix : Matrix float64;
  applicant_fi_matrix : Matrix float64
}.

Section main.
Variable to_datetime_year : list value → option (list (option Z)).

(** The statements of [main] on the uploaded table that compute tables;
    the calls that draw them come in between and only read them.  [None]
    stands for an early [return] and for the [except] branch. *)
Definition main_data (df : DataFrame) : option Dashboard :=
  if decide (missing_columns df ≠ []) then None
  else
    match preprocess_data to_datetime_year df with
    | (_, None) => None
    | (df_processed, Some _) =>
      expanded ← expand_data df_processed;
      let df_applicants := expanded.1.1 in
      let df_fi := expanded.1.2 in
      let df_applicants_fi := expanded.2 in
      aggregated_data ←
        aggregate_data df_processed df_applicants df_fi df_applicants_fi;
      let problem_solution_data :=
        (analyze_problem_solution_data df_processed (Some df_applicants)).1 in
      statistics ← basic_statistics df_processed aggregated_data;
      year_col ← get_column col_year df_processed;
      numbers ← mapM int_of_year (distinct year_col);
      let years_sorted := KInt <$> merge_sort Z.le numbers in
      Some {| df_processed := df_processed;
              aggregated_data := aggregated_data;
              problem_solution_data := problem_solution_data;
              statistics := statistics;
              years_sorted := years_sorted;
              applicant_year_matrix :=
                create_heatmap_data (year_top_applicant aggregated_data)
                  key2 key1 (Z.of_nat ∘ counts)
                  (top10_applicants aggregated_data) years_sorted;
              fi_year_matrix :=
                create_heatmap_data (year_top_fi aggregated_data)
                  key2 key1 (Z.of_nat ∘ counts)
                  (top10_fi aggregated_data) years_sorted;
              applicant_fi_matrix :=
                create_heatmap_data (top_applicant_top_fi aggregated_data)
                  key1 key2 (Z.of_nat ∘ counts)
                  (top10_applicants aggregated_data)
                  (top10_fi aggregated_data) |}
    end.
End main.

(** ** A date reader for the examples *)

Definition digit_value (c : N) : option Z :=
  if ((48 <=? c) && (c <=? 57))%N then Some (Z.of_N (c - 48)) else None.

(** Reads the year of a date written [YYYY-MM-DD]. *)
Definition iso_year (v : value) : option (option Z) :=
  match v with
  | VNaN => Some None
  | VStr (a :: b :: c :: d :: 45%N :: _) =>
      a ← digit_value a; b ← digit_value b;
      c ← digit_value c; d ← digit_value d;
      Some (Some (1000 * a + 100 * b + 10 * c + d)%Z)
  | _ => None
  end.

Definition iso_years (col : list value) : option (list (option Z)) :=
  mapM iso_year col.

(** ** Notions used to state the properties *)

(** [len(row[c])] for a cell holding a list. *)
Definition list_len (c : pystr) (row : gmap pystr value) : nat :=
  match row !! c with
  | Some (VList l) => length l
  | _ => 0
  end.

(** A normalized record carries its two lists. *)
Definition normalized (row : gmap pystr value) : Prop :=
  ∃ applicants fis,
    row !! col_applicants_list = Some (VList applicants)
    ∧ row !! col_fi_list = Some (VList fis).

(** The strict order of the keys. *)
Definition key_lt (a b : key) : Prop := key_le a b ∧ a ≠ b.

(** A text made of white space only (or empty). *)
Definition blank (s : pystr) : Prop := strip s = [].

(** [preprocess_data] seen from one row, with the year the row receives:
    the first four assignments, then the fifth. *)
Definition split_row (year : value) (row : gmap pystr value)
  : gmap pystr value :=
  let row := <[col_year := year]> row in
  let row :=
    <[col_applicant := str_replace_markers (cell col_applicant row)]> row in
  let row :=
    <[col_applicants_list := str_split_comma (cell col_applicant row)]> row in
  <[col_fi_list := str_split_fi (fillna_empty (cell col_FI row))]> row.

Definition normalize_row (year : value) (row : gmap pystr value)
  : gmap pystr value :=
  let row := split_row year row in
  <[col_fi_list := default VNaN (keep_nonblank (cell col_fi_list row))]> row.

(** What C3 says of a frequency table, its top table and the copy of the
    top table that may carry the [others] row. *)
Definition others_bucket (table top ratio : list (key * nat)) : Prop :=
  let rest := sum_list (drop 10 table).*2 in
  top = take 10 table
  ∧ (0 < rest → ratio = top ++ [(others, rest)])
  ∧ (rest = 0 → ratio = top)
  ∧ rest = sum_list table.*2 - sum_list top.*2
  ∧ sum_list ratio.*2 = sum_list table.*2.

(** A batch of three records for the examples: twelve applicants, of
    which two lie beyond the first ten, and more records in the later
    year than in the earlier. *)
Definition raw_row (date applicant fi : pystr) : gmap pystr value :=
  {[ col_date := VStr date; col_applicant := VStr applicant;
     col_FI := VStr fi ]}.

Definition raw_example : DataFrame :=
  frame_of_rows
    [ raw_row (py "2021-03-01")
        (marker_up :: py "a,b,c,d,e,f,g,h,i,j,k,l") (py "A01B 1,00,B02C");
      raw_row (py "2021-06-01") (py "a, b") (py "A01B 1,00");
      raw_row (py "2020-01-01") (py "a") (py "B02C, ") ].

Definition processed_example : DataFrame :=
  (preprocess_data iso_years raw_example).1.

Definition empty_frame : DataFrame := frame_of_rows [].

Definition expanded_example : DataFrame * DataFrame * DataFrame :=
  default (empty_frame, empty_frame, empty_frame)
          (expand_data processed_example).

Definition applicants_example : DataFrame := expanded_example.1.1.
Definition fi_example : DataFrame := expanded_example.1.2.
Definition applicants_fi_example : DataFrame := expanded_example.2.

Definition aggregate_example : option Aggregated :=
  aggregate_data processed_example applicants_example fi_example
    applicants_fi_example.

(** A record whose applicant is only a marker and whose classification
    code is only white space, followed by an ordinary record. *)
Definition blank_example : DataFrame :=
  frame_of_rows
    [ raw_row (py "2022-02-02") [marker_down] (py "  ");
      raw_row (py "2022-03-03") (py "X") (py "A01B") ].

(** Two tables with both category columns: in the first no row has both
    categories, in the second two rows of three have. *)
Definition category_row (problem solution : value) : gmap pystr value :=
  {[ col_problem := problem; col_solution := solution ]}.

Definition unpopulated_example : DataFrame :=
  frame_of_rows
    [ category_row (VStr (py "P1")) VNaN;
      category_row VNaN (VStr (py "S1")) ].

Definition categories_example : DataFrame :=
  frame_of_rows
    [ category_row (VStr (py "P1")) (VStr (py "S1"));
      category_row (VStr (py "P1")) VNaN;
      category_row (VStr (py "P2")) (VStr (py "S1")) ].

(** Three records with applicants ["X, Y"], ["X"], ["Z"] and codes ["A"],
    ["A,B"], ["B"], as [preprocess_data] leaves them. *)
Definition normalized_example : DataFrame :=
  frame_of_rows
    [ {[ col_applicants_list := VList [py "X"; py " Y"];
         col_fi_list := VList [py "A"] ]};
      {[ col_applicants_list := VList [py "X"];
         col_fi_list := VList [py "A"; py "B"] ]};
      {[ col_applicants_list := VList [py "Z"];
         col_fi_list := VList [py "B"] ]} ].

(** A cross table of (year, applicant) counts, read with the applicants
    as rows; the row label [Q] and the column label [2019] do not occur
    in it. *)
Definition cross_example : list group_row :=
  [ GroupRow (KInt 2020) (KStr (py "X")) 2;
    GroupRow (KInt 2021) (KStr (py "Z")) 1;
    GroupRow (KInt 2021) (KStr (py "X")) 5 ].

(** [",".join(pieces)] *)
Fixpoint join_comma (pieces : list pystr) : pystr :=
  match pieces with
  | [] => []
  | p :: ps =>
      match ps with
      | [] => p
      | _ :: _ => p ++ comma :: join_comma ps
      end
  end.

(** Every comma of the text is followed, in the text, by a decimal digit. *)
Definition commas_protected (piece : pystr) : Prop :=
  ∀ k, piece !! k = Some comma →
       ∃ d, piece !! S k = Some d ∧ is_decimal d = true.

(** A batch with a record without applicant, and a batch whose records
    have no classification code. *)
Definition incomplete_example : DataFrame :=
  frame_of_rows
    [ raw_row (py "2020-01-01") (py "X") (py "B02C");
      {[ col_date := VStr (py "2021-05-01"); col_applicant := VNaN;
         col_FI := VStr (py "A01B") ]} ].

Definition codeless_example : DataFrame :=
  frame_of_rows
    [ raw_row (py "2020-01-01") (py "X") (py " ");
      {[ col_date := VStr (py "2020-01-01"); col_applicant := VStr (py "Y");
         col_FI := VNaN ]} ].

(** The cells of a column of a table that are not missing. *)
Definition present (c : pystr) (df : DataFrame) : list value :=
  filter (λ v, v ≠ VNaN) (cell c <$> rows df).

(** A batch in which one record has no date. *)
Definition undated_example : DataFrame :=
  frame_of_rows
    [ raw_row (py "2020-01-01") (py "X") (py "A01B");
      {[ col_date := VNaN; col_applicant := VStr (py "Y");
         col_FI := VStr (py "B02C") ]} ].

(** * Properties *)

(** ** Examples of the string operations *)

Example split_comma_ex :
  split_comma (py "X, Y") = [py "X"; py " Y"] ∧ split_comma [] = [[]].
Proof. split; reflexivity. Qed.

Example strip_ex : strip (py "  a b  ") = py "a b" ∧ strip (py "   ") = [].
Proof. split; reflexivity. Qed.

Example split_fi_ex :
  split_fi (py "A01B 1/00,A01B 1,00,B02C") =
    [py "A01B 1/00"; py "A01B 1,00"; py "B02C"].
Proof. reflexivity. Qed.

(** ** The classification-code split *)

(** C1, as the specification states it, does not hold: on
    ["A01B,1,00,B02C3/00"] the split does not give the three pieces
    ["A01B"], ["1,00"], ["B02C3/00"], because the first comma too is
    followed by a digit. *)
Lemma three_piece_split_refuted :
  fi_list_cell (VStr (py "A01B,1,00,B02C3/00"))
    ≠ Some (VList [py "A01B"; py "1,00"; py "B02C3/00"]).
Proof. vm_compute. discriminate. Qed.

(** C1 (amended): on the classification-code string
    ["A01B,1,00,B02C3/00"] the split at the commas that are not followed
    by a digit, with the blank pieces dropped, gives exactly the two
    pieces ["A01B,1,00"] and ["B02C3/00"]. *)
Theorem fi_split_example :
  fi_list_cell (VStr (py "A01B,1,00,B02C3/00"))
    = Some (VList [py "A01B,1,00"; py "B02C3/00"]).
Proof. reflexivity. Qed.

(** ** Row counts of the expansion *)

Lemma mapM_fmap_total {A B} (f : A → option B) (g : A → B) (l : list A) :
  Forall (λ x, f x = Some (g x)) l → mapM f l = Some (g <$> l).
Proof.
  intros Hl. apply mapM_Some_2.
  induction Hl; simpl; constructor; auto.
Qed.

Lemma length_mjoin_fmap {A B} (g : A → list B) (l : list A) :
  length (mjoin (g <$> l)) = sum_list_with (λ x, length (g x)) l.
Proof.
  induction l as [|x l IH]; csimpl; [done|].
  by rewrite length_app, IH.
Qed.

Lemma length_product {A B C} (g : A → B → C) (l : list A) (k : list B) :
  length (mjoin (for_each l (λ a, for_each k (g a))))
    = length l * length k.
Proof.
  unfold for_each. rewrite length_mjoin_fmap.
  induction l as [|a l IH]; csimpl; [done|].
  by rewrite length_fmap, IH.
Qed.

Lemma expand_applicant_normalized row applicants :
  row !! col_applicants_list = Some (VList applicants) →
  expand_applicant row =
    Some (for_each applicants (λ applicant,
            <[col_applicant := VStr (strip applicant)]> row)).
Proof. intros H. unfold expand_applicant, item. by rewrite H. Qed.

Lemma expand_fi_normalized row fis :
  row !! col_fi_list = Some (VList fis) →
  expand_fi row =
    Some (for_each fis (λ fi, <[col_FI := VStr (strip fi)]> row)).
Proof. intros H. unfold expand_fi, item. by rewrite H. Qed.

Lemma expand_applicant_fi_normalized row applicants fis :
  row !! col_applicants_list = Some (VList applicants) →
  row !! col_fi_list = Some (VList fis) →
  expand_applicant_fi row =
    Some (mjoin (for_each applicants (λ applicant, for_each fis (λ fi,
            <[col_FI := VStr (strip fi)]>
              (<[col_applicant := VStr (strip applicant)]> row))))).
Proof.
  intros Ha Hf. unfold expand_applicant_fi, item. rewrite Ha. simpl.
  erewrite mapM_fmap_total; [done|].
  apply Forall_forall. intros applicant _. by rewrite Hf.
Qed.

(** The number of rows each of the three loops appends for one row. *)
Lemma expand_row_lengths row :
  normalized row →
  ∃ ra rf raf,
    expand_applicant row = Some ra ∧ expand_fi row = Some rf
    ∧ expand_applicant_fi row = Some raf
    ∧ length ra = list_len col_applicants_list row
    ∧ length rf = list_len col_fi_list row
    ∧ length raf = list_len col_applicants_list row * list_len col_fi_list row.
Proof.
  intros (applicants & fis & Ha & Hf).
  eexists _, _, _.
  rewrite (expand_applicant_normalized _ _ Ha), (expand_fi_normalized _ _ Hf),
    (expand_applicant_fi_normalized _ _ _ Ha Hf).
  repeat split; unfold list_len; rewrite ?Ha, ?Hf.
  - apply length_fmap.
  - apply length_fmap.
  - apply (length_product (λ applicant fi,
      <[col_FI := VStr (strip fi)]>
        (<[col_applicant := VStr (strip applicant)]> row))).
Qed.

Lemma mapM_total_length {A B} (f : A → option (list B)) (len : A → nat)
    (l : list A) :
  Forall (λ x, ∃ out, f x = Some out ∧ length out = len x) l →
  ∃ outs, mapM f l = Some outs ∧ length (mjoin outs) = sum_list_with len l.
Proof.
  induction 1 as [|x l (out & Hx & Hlen) _ (outs & Hl & IH)].
  - by exists [].
  - exists (out :: outs). split.
    + apply mapM_Some_2. constructor; [done|]. by apply mapM_Some_1.
    + csimpl. rewrite length_app. congruence.
Qed.

(** C2: for every batch of normalized records [expand_data] returns three
    tables; the applicant table has as many rows as the records have
    applicants in all, the code table as many as they have codes, and the
    joint table the sum over the records of the product of the two. *)
Theorem expand_data_row_counts (df : DataFrame) :
  Forall normalized (rows df) →
  ∃ df_applicants df_fi df_applicants_fi,
    expand_data df = Some (df_applicants, df_fi, df_applicants_fi)
    ∧ length (rows df_applicants)
      = sum_list_with (list_len col_applicants_list) (rows df)
    ∧ length (rows df_fi) = sum_list_with (list_len col_fi_list) (rows df)
    ∧ length (rows df_applicants_fi)
      = sum_list_with
          (λ row, list_len col_applicants_list row * list_len col_fi_list row)
          (rows df).
Proof.
  intros Hnorm.
  destruct (mapM_total_length expand_applicant
              (list_len col_applicants_list) (rows df)) as (a & Ha & Hla).
  { eapply Forall_impl; [exact Hnorm|]. intros row Hrow.
    destruct (expand_row_lengths row Hrow) as (ra & _ & _ & ? & _ & _ & ? & _).
    eauto. }
  destruct (mapM_total_length expand_fi
              (list_len col_fi_list) (rows df)) as (f & Hf & Hlf).
  { eapply Forall_impl; [exact Hnorm|]. intros row Hrow.
    destruct (expand_row_lengths row Hrow) as (_ & rf & _ & _ & ? & _ & _ & ? & _).
    eauto. }
  destruct (mapM_total_length expand_applicant_fi
              (λ row, list_len col_applicants_list row
                      * list_len col_fi_list row) (rows df))
    as (af & Haf & Hlaf).
  { eapply Forall_impl; [exact Hnorm|]. intros row Hrow.
    destruct (expand_row_lengths row Hrow) as (_ & _ & raf & _ & _ & ? & _ & _ & ?).
    eauto. }
  exists (frame_of_rows (mjoin a)), (frame_of_rows (mjoin f)),
    (frame_of_rows (mjoin af)).
  unfold expand_data. rewrite Ha, Hf, Haf. simpl. auto.
Qed.

Lemma expand_data_row_counts_witness :
  ∃ df_applicants df_fi df_applicants_fi,
    expand_data normalized_example
      = Some (df_applicants, df_fi, df_applicants_fi)
    ∧ length (rows df_applicants) = 4
    ∧ length (rows df_fi) = 4
    ∧ length (rows df_applicants_fi) = 5.
Proof.
  apply (expand_data_row_counts normalized_example).
  repeat constructor; eexists _, _; split; reflexivity.
Defined.

(** ** What [aggregate_data] returns *)

Lemma aggregate_data_inv df df_applicants df_fi df_applicants_fi res :
  aggregate_data df df_applicants df_fi df_applicants_fi = Some res →
  ∃ counted_years by_year_applicant by_year_fi by_applicant_fi,
    get_column col_applicant df_applicants ≫= value_counts
      = Some (applicant_counts res)
    ∧ get_column col_FI df_fi ≫= value_counts = Some (fi_counts res)
    ∧ get_column col_year df ≫= value_counts = Some counted_years
    ∧ sort_values counted_years = Some (year_counts res)
    ∧ year_applicant_group df_applicants = Some by_year_applicant
    ∧ year_fi_group df_fi = Some by_year_fi
    ∧ applicant_fi_group df_applicants_fi = Some by_applicant_fi
    ∧ top_applicants res = take 10 (applicant_counts res)
    ∧ top_fi res = take 10 (fi_counts res)
    ∧ top_applicant_ratio res
      = with_others (top_applicants res) (others_count (applicant_counts res))
    ∧ top_fi_ratio res = with_others (top_fi res) (others_count (fi_counts res))
    ∧ top10_applicants res = (top_applicants res).*1
    ∧ top10_fi res = (top_fi res).*1
    ∧ year_top_applicant res
      = filter (λ g, key2 g ∈ top10_applicants res) by_year_applicant
    ∧ year_top_fi res = filter (λ g, key2 g ∈ top10_fi res) by_year_fi
    ∧ top_applicant_top_fi res
      = filter (λ g, key1 g ∈ top10_applicants res ∧ key2 g ∈ top10_fi res)
               by_applicant_fi.
Proof.
  unfold aggregate_data. intros H.
  destruct (get_column col_applicant df_applicants ≫= value_counts)
    as [ac|]; [|done].
  destruct (get_column col_FI df_fi ≫= value_counts) as [fc|]; [|done].
  destruct (get_column col_year df ≫= value_counts) as [yc|]; [|done].
  simpl in H.
  destruct (sort_values yc) as [ys|] eqn:Hys; [|done].
  destruct (year_applicant_group df_applicants) as [g1|]; [|done].
  destruct (year_fi_group df_fi) as [g2|]; [|done].
  destruct (applicant_fi_group df_applicants_fi) as [g3|]; [|done].
  simpl in H. injection H as <-. simpl.
  exists yc, g1, g2, g3. repeat split; done.
Qed.

(** ** The [others] row *)

Lemma others_count_rest (table : list (key * nat)) :
  others_count table = sum_list (drop 10 table).*2.
Proof.
  unfold others_count. case_decide; [done|].
  rewrite drop_ge by lia. done.
Qed.

Lemma sum_take_drop (n : nat) (table : list (key * nat)) :
  sum_list (take n table).*2 + sum_list (drop n table).*2
    = sum_list table.*2.
Proof.
  rewrite <- (take_drop n table) at 3.
  by rewrite fmap_app, sum_list_with_app.
Qed.

(** The copy with the [others] row, for any frequency table. *)
Lemma with_others_bucket (table : list (key * nat)) :
  others_bucket table (take 10 table)
    (with_others (take 10 table) (others_count table)).
Proof.
  unfold others_bucket, with_others. rewrite others_count_rest.
  pose proof (sum_take_drop 10 table) as Hsum.
  repeat split.
  - intros Hpos. by rewrite decide_True.
  - intros Hzero. rewrite decide_False; [done|lia].
  - lia.
  - case_decide.
    + rewrite fmap_app, sum_list_with_app. simpl. lia.
    + lia.
Qed.

(** C3: in what [aggregate_data] returns, for the applicants and for the
    codes alike, the top table is the first ten rows of the frequency
    table and is returned as it is; its copy carries the [others] row
    exactly when the rows beyond the tenth have a positive total, the
    count of that row is this total, which is the total of the table minus
    the total of the top table, and the copy sums to the total of the
    frequency table. *)
Theorem aggregate_data_others df df_applicants df_fi df_applicants_fi res :
  aggregate_data df df_applicants df_fi df_applicants_fi = Some res →
  others_bucket (applicant_counts res) (top_applicants res)
    (top_applicant_ratio res)
  ∧ others_bucket (fi_counts res) (top_fi res) (top_fi_ratio res).
Proof.
  intros H.
  destruct (aggregate_data_inv _ _ _ _ _ H)
    as (_ & _ & _ & _ & _ & _ & _ & _ & _ & _ & _
        & Hta & Htf & Hra & Hrf & _).
  rewrite Hra, Hrf, Hta, Htf.
  split; apply with_others_bucket.
Qed.

Lemma aggregate_data_others_witness :
  ∃ res,
    aggregate_example = Some res
    ∧ length (applicant_counts res) = 12
    ∧ others_bucket (applicant_counts res) (top_applicants res)
        (top_applicant_ratio res)
    ∧ others_bucket (fi_counts res) (top_fi res) (top_fi_ratio res).
Proof.
  eexists. split; [vm_compute; reflexivity|].
  split; [reflexivity|].
  apply (aggregate_data_others processed_example applicants_example
           fi_example applicants_fi_example).
  vm_compute. reflexivity.
Defined.

Example aggregate_example_ratio :
  ∃ res,
    aggregate_example = Some res
    ∧ top_applicant_ratio res = top_applicants res ++ [(others, 2)]
    ∧ top_fi_ratio res = top_fi res
    ∧ year_counts res = [(KInt 2020, 1); (KInt 2021, 2)].
Proof. eexists. split; [vm_compute; reflexivity|]. by vm_compute. Qed.

(** ** The order of the keys *)

Lemma str_leb_total a b : str_leb a b = true ∨ str_leb b a = true.
Proof.
  revert b. induction a as [|x a IH]; intros [|y b]; simpl; auto.
  destruct (N.ltb_spec x y), (N.ltb_spec y x), (N.eqb_spec x y),
    (N.eqb_spec y x); auto; lia.
Qed.

Lemma str_leb_trans a b c :
  str_leb a b = true → str_leb b c = true → str_leb a c = true.
Proof.
  revert b c. induction a as [|x a IH]; intros [|y b] [|z c]; simpl; try done.
  destruct (N.ltb_spec x y), (N.ltb_spec y z), (N.ltb_spec x z),
    (N.eqb_spec x y), (N.eqb_spec y z), (N.eqb_spec x z);
    try done; try lia; eauto.
Qed.

Lemma str_leb_antisym a b :
  str_leb a b = true → str_leb b a = true → a = b.
Proof.
  revert b. induction a as [|x a IH]; intros [|y b]; simpl; try done.
  destruct (N.ltb_spec x y), (N.ltb_spec y x), (N.eqb_spec x y),
    (N.eqb_spec y x); try done; try lia.
  intros. f_equal; auto.
Qed.

#[global] Instance key_le_total : Total key_le.
Proof.
  intros [x|x] [y|y]; unfold key_le; simpl; auto.
  - destruct (Z.leb_spec x y), (Z.leb_spec y x); auto; lia.
  - apply str_leb_total.
Qed.

#[global] Instance key_le_trans : Transitive key_le.
Proof.
  intros [x|x] [y|y] [z|z]; unfold key_le; simpl; try done.
  - rewrite !Z.leb_le. lia.
  - apply str_leb_trans.
Qed.

#[global] Instance key_le_antisym : AntiSymm (=) key_le.
Proof.
  intros [x|x] [y|y]; unfold key_le; simpl; try done.
  - rewrite !Z.leb_le. intros. f_equal. lia.
  - intros. f_equal. by apply str_leb_antisym.
Qed.

Lemma key_lt_int (x y : Z) : key_lt (KInt x) (KInt y) ↔ (x < y)%Z.
Proof.
  unfold key_lt, key_le. simpl. rewrite Z.leb_le. split.
  - intros [Hle Hne]. destruct (decide (x = y)) as [->|]; [done|lia].
  - intros Hlt. split; [lia|]. intros [= ->]. lia.
Qed.

#[global] Instance by_key_le_total : Total by_key_le.
Proof. intros a b. apply (total key_le). Qed.

#[global] Instance by_key_le_trans : Transitive by_key_le.
Proof. intros a b c. apply (transitivity (R := key_le)). Qed.

(** ** Counting *)

Lemma insert_sorted_perm {A} (R : relation A) `{∀ x y, Decision (R x y)}
    (x : A) (l : list A) :
  insert_sorted R x l ≡ₚ x :: l.
Proof.
  induction l as [|y l IH]; simpl; [done|].
  case_decide; [done|]. rewrite IH. apply Permutation_swap.
Qed.

Lemma stable_sort_perm {A} (R : relation A) `{∀ x y, Decision (R x y)}
    (l : list A) :
  stable_sort R l ≡ₚ l.
Proof.
  induction l as [|x l IH]; simpl; [done|].
  by rewrite insert_sorted_perm, IH.
Qed.

Lemma elem_of_distinct {A} `{EqDecision A} (x : A) (l : list A) :
  x ∈ distinct l ↔ x ∈ l.
Proof.
  induction l as [|y l IH]; simpl; [done|].
  rewrite !elem_of_cons, list_elem_of_filter, IH.
  destruct (decide (x = y)); tauto.
Qed.

Lemma NoDup_distinct {A} `{EqDecision A} (l : list A) : NoDup (distinct l).
Proof.
  induction l as [|x l IH]; simpl; constructor.
  - rewrite list_elem_of_filter. tauto.
  - by apply NoDup_filter.
Qed.

Lemma tally_keys {A} `{EqDecision A} (l : list A) :
  (tally l).*1 = distinct l.
Proof.
  unfold tally. rewrite <- list_fmap_compose. apply list_fmap_id.
Qed.

Lemma elem_of_tally {A} `{EqDecision A} (x : A) (n : nat) (l : list A) :
  (x, n) ∈ tally l ↔ x ∈ l ∧ n = occurrences x l.
Proof.
  unfold tally. rewrite list_elem_of_fmap. split.
  - intros (y & [= -> ->] & Hy). by rewrite <- elem_of_distinct.
  - intros [Hx ->]. exists x. by rewrite elem_of_distinct.
Qed.

Lemma value_counts_inv col table :
  value_counts col = Some table →
  ∃ labels,
    mapM as_label col = Some labels ∧ table ≡ₚ tally (omap id labels).
Proof.
  unfold value_counts. intros H.
  destruct (mapM as_label col) as [labels|]; [|done].
  injection H as <-. exists labels. split; [done|]. apply stable_sort_perm.
Qed.

Lemma value_counts_NoDup col table :
  value_counts col = Some table → NoDup table.*1.
Proof.
  intros (labels & _ & Hperm)%value_counts_inv.
  rewrite Hperm, tally_keys. apply NoDup_distinct.
Qed.

(** ** The table of the years *)

Lemma sort_values_inv t sorted :
  sort_values t = Some sorted → sorted = merge_sort by_key_le t.
Proof. unfold sort_values. case_match; congruence. Qed.

Lemma StronglySorted_strict (t : list (key * nat)) :
  StronglySorted by_key_le t → NoDup t.*1 →
  StronglySorted (λ a b, key_lt a.1 b.1) t.
Proof.
  induction 1 as [|a t Ht IH Hall]; intros Hnd; constructor.
  - apply IH. by apply NoDup_cons_1_2 in Hnd.
  - apply NoDup_cons_1_1 in Hnd.
    apply Forall_forall. intros b Hb. split.
    + by apply (proj1 (Forall_forall _ _) Hall).
    + intros Heq. apply Hnd. rewrite Heq. apply list_elem_of_fmap. eauto.
Qed.

(** C5: the table of the years that [aggregate_data] returns is in the
    strictly increasing order of the years, whatever the counts are. *)
Theorem year_counts_sorted df df_applicants df_fi df_applicants_fi res :
  aggregate_data df df_applicants df_fi df_applicants_fi = Some res →
  StronglySorted (λ a b, key_lt a.1 b.1) (year_counts res).
Proof.
  intros H.
  destruct (aggregate_data_inv _ _ _ _ _ H)
    as (counted & ? & ? & ? & _ & _ & Hcount & Hsort & _).
  apply sort_values_inv in Hsort. rewrite Hsort.
  apply StronglySorted_strict.
  - apply (StronglySorted_merge_sort _).
  - rewrite merge_sort_Permutation.
    destruct (get_column col_year df) as [col|]; [|done].
    by apply (value_counts_NoDup col).
Qed.

(** In the example the later year has the larger count and still comes
    last. *)
Lemma year_counts_sorted_witness :
  ∃ res,
    aggregate_example = Some res
    ∧ year_counts res = [(KInt 2020, 1); (KInt 2021, 2)]
    ∧ StronglySorted (λ a b, key_lt a.1 b.1) (year_counts res).
Proof.
  eexists. split; [vm_compute; reflexivity|].
  split; [reflexivity|].
  apply (year_counts_sorted processed_example applicants_example
           fi_example applicants_fi_example).
  vm_compute. reflexivity.
Defined.

(** ** The top-10 filters *)

Lemma top10_in_table (k : key) (table : list (key * nat)) :
  k ∈ (take 10 table).*1 → k ∈ table.*1.
Proof.
  rewrite !list_elem_of_fmap. intros (x & -> & Hx).
  exists x. split; [done|]. by apply (subseteq_take 10 table).
Qed.

(** C6: the rows of the year-by-applicant and year-by-code tables are
    the rows of the (year, entity) groupings whose entity is one of the
    names of the top table as it stands (the first ten of the frequency
    table): every such row is kept, no other is, and unless [others] is
    itself a name of the frequency table no row carries it. *)
Theorem year_top_rows df df_applicants df_fi df_applicants_fi res :
  aggregate_data df df_applicants df_fi df_applicants_fi = Some res →
  ∃ by_year_applicant by_year_fi,
    year_applicant_group df_applicants = Some by_year_applicant
    ∧ year_fi_group df_fi = Some by_year_fi
    ∧ top10_applicants res = (take 10 (applicant_counts res)).*1
    ∧ top10_fi res = (take 10 (fi_counts res)).*1
    ∧ (∀ g, g ∈ year_top_applicant res
            ↔ g ∈ by_year_applicant ∧ key2 g ∈ top10_applicants res)
    ∧ (∀ g, g ∈ year_top_fi res ↔ g ∈ by_year_fi ∧ key2 g ∈ top10_fi res)
    ∧ (others ∉ (applicant_counts res).*1 →
       ∀ g, g ∈ year_top_applicant res → key2 g ≠ others)
    ∧ (others ∉ (fi_counts res).*1 →
       ∀ g, g ∈ year_top_fi res → key2 g ≠ others).
Proof.
  intros H.
  destruct (aggregate_data_inv _ _ _ _ _ H)
    as (? & g1 & g2 & ? & _ & _ & _ & _ & Hg1 & Hg2 & _
        & Hta & Htf & _ & _ & H10a & H10f & Hya & Hyf & _).
  exists g1, g2. rewrite H10a, H10f, Hta, Htf in *.
  assert (∀ g, g ∈ year_top_applicant res
               ↔ g ∈ g1 ∧ key2 g ∈ (take 10 (applicant_counts res)).*1) as Ha.
  { intros g. rewrite Hya, list_elem_of_filter. tauto. }
  assert (∀ g, g ∈ year_top_fi res
               ↔ g ∈ g2 ∧ key2 g ∈ (take 10 (fi_counts res)).*1) as Hf.
  { intros g. rewrite Hyf, list_elem_of_filter. tauto. }
  split_and!; try done.
  - intros Hno g [_ Hg]%Ha Heq. rewrite Heq in Hg.
    by apply Hno, top10_in_table.
  - intros Hno g [_ Hg]%Hf Heq. rewrite Heq in Hg.
    by apply Hno, top10_in_table.
Qed.

(** In the example the copy of the top table carries the [others] row,
    and the rows of the applicants [k] and [l], which it stands for, are
    left out. *)
Lemma year_top_rows_witness :
  ∃ res,
    aggregate_example = Some res
    ∧ (others, 2) ∈ top_applicant_ratio res
    ∧ GroupRow (KInt 2021) (KStr (py "k")) 1
      ∈ default [] (year_applicant_group applicants_example)
    ∧ ∃ by_year_applicant by_year_fi,
        year_applicant_group applicants_example = Some by_year_applicant
        ∧ year_fi_group fi_example = Some by_year_fi
        ∧ top10_applicants res = (take 10 (applicant_counts res)).*1
        ∧ top10_fi res = (take 10 (fi_counts res)).*1
        ∧ (∀ g, g ∈ year_top_applicant res
                ↔ g ∈ by_year_applicant ∧ key2 g ∈ top10_applicants res)
        ∧ (∀ g, g ∈ year_top_fi res
                ↔ g ∈ by_year_fi ∧ key2 g ∈ top10_fi res)
        ∧ (others ∉ (applicant_counts res).*1 →
           ∀ g, g ∈ year_top_applicant res → key2 g ≠ others)
        ∧ (others ∉ (fi_counts res).*1 →
           ∀ g, g ∈ year_top_fi res → key2 g ≠ others).
Proof.
  eexists. split; [vm_compute; reflexivity|].
  split; [apply (bool_decide_unpack _); by vm_compute|].
  split; [apply (bool_decide_unpack _); by vm_compute|].
  apply (year_top_rows processed_example applicants_example
           fi_example applicants_fi_example).
  vm_compute. reflexivity.
Defined.

(** C7: a row of the (applicant, code) grouping is in the
    applicant-by-code table exactly when its applicant is one of the top
    ten applicants and its code is one of the top ten codes. *)
Theorem top_applicant_top_fi_rows df df_applicants df_fi df_applicants_fi res :
  aggregate_data df df_applicants df_fi df_applicants_fi = Some res →
  ∃ by_applicant_fi,
    applicant_fi_group df_applicants_fi = Some by_applicant_fi
    ∧ top10_applicants res = (take 10 (applicant_counts res)).*1
    ∧ top10_fi res = (take 10 (fi_counts res)).*1
    ∧ ∀ g, g ∈ top_applicant_top_fi res
           ↔ g ∈ by_applicant_fi
             ∧ key1 g ∈ top10_applicants res ∧ key2 g ∈ top10_fi res.
Proof.
  intros H.
  destruct (aggregate_data_inv _ _ _ _ _ H)
    as (? & ? & ? & g3 & _ & _ & _ & _ & _ & _ & Hg3
        & Hta & Htf & _ & _ & H10a & H10f & _ & _ & Haf).
  exists g3. rewrite H10a, H10f, Hta, Htf in *.
  split_and!; try done.
  intros g. rewrite Haf, list_elem_of_filter. tauto.
Qed.

Lemma top_applicant_top_fi_rows_witness :
  ∃ res,
    aggregate_example = Some res
    ∧ GroupRow (KStr (py "a")) (KStr (py "B02C")) 2 ∈ top_applicant_top_fi res
    ∧ GroupRow (KStr (py "k")) (KStr (py "B02C")) 1
      ∈ default [] (applicant_fi_group applicants_fi_example)
    ∧ ∃ by_applicant_fi,
        applicant_fi_group applicants_fi_example = Some by_applicant_fi
        ∧ top10_applicants res = (take 10 (applicant_counts res)).*1
        ∧ top10_fi res = (take 10 (fi_counts res)).*1
        ∧ ∀ g, g ∈ top_applicant_top_fi res
               ↔ g ∈ by_applicant_fi
                 ∧ key1 g ∈ top10_applicants res ∧ key2 g ∈ top10_fi res.
Proof.
  eexists. split; [vm_compute; reflexivity|].
  split; [apply (bool_decide_unpack _); by vm_compute|].
  split; [apply (bool_decide_unpack _); by vm_compute|].
  apply (top_applicant_top_fi_rows processed_example applicants_example
           fi_example applicants_fi_example).
  vm_compute. reflexivity.
Defined.

(** ** The dense matrix *)

Lemma position_Some k labels i : position k labels = Some i → labels !! i = Some k.
Proof.
  unfold position. destruct (list_find _ labels) as [[i' x]|] eqn:Hfind; [|done].
  intros [= <-]. by apply list_find_Some in Hfind as (? & -> & _).
Qed.

Lemma position_None k labels : position k labels = None → k ∉ labels.
Proof.
  unfold position. destruct (list_find _ labels) as [[i' x]|] eqn:Hfind; [done|].
  intros _ Hin. apply list_find_None in Hfind.
  by apply (proj1 (Forall_forall _ _) Hfind k).
Qed.

Lemma elem_of_axis {T} (col : T → key) (data : list T) (k : key) :
  k ∈ merge_sort key_le (distinct (col <$> data)) ↔ ∃ x, x ∈ data ∧ col x = k.
Proof.
  rewrite merge_sort_Permutation, elem_of_distinct, list_elem_of_fmap.
  split; intros (x & ? & ?); eauto.
Qed.

Lemma lookup_for_each2 {A} (f : key → key → A) (index cols : list key)
    i j r c :
  index !! i = Some r → cols !! j = Some c →
  for_each index (λ r, for_each cols (λ c, f r c)) !! i ≫= (.!! j)
    = Some (f r c).
Proof.
  intros Hi Hj. unfold for_each.
  rewrite list_lookup_fmap, Hi. simpl.
  by rewrite list_lookup_fmap, Hj.
Qed.

Lemma reindex_cell {A} (m : Matrix A) (index cols : list key) (fill : A)
    i j r c :
  index !! i = Some r → cols !! j = Some c →
  m_values (reindex m index cols fill) !! i ≫= (.!! j)
    = Some (match position r (m_index m), position c (m_columns m) with
            | Some i', Some j' => default fill (m_values m !! i' ≫= (.!! j'))
            | _, _ => fill
            end).
Proof.
  apply (lookup_for_each2 (λ r c,
    match position r (m_index m), position c (m_columns m) with
    | Some i', Some j' => default fill (m_values m !! i' ≫= (.!! j'))
    | _, _ => fill
    end)).
Qed.

Lemma filter_none {A} (P : A → Prop) `{∀ x, Decision (P x)} (l : list A) :
  (∀ x, x ∈ l → ¬ P x) → filter P l = [].
Proof.
  induction l as [|y l IH]; intros Hl; [done|].
  rewrite filter_cons, decide_False.
  - apply IH. intros x Hx. apply Hl. by right.
  - apply Hl. by left.
Qed.

(** *** The float64 of an integer *)

#[local] Open Scope Z_scope.

Lemma digits2_pos_iter p k :
  digits2_pos (Pos.iter xO p k) = (digits2_pos p + k)%positive.
Proof.
  induction k as [|k IH] using Pos.peano_ind.
  - simpl. lia.
  - rewrite Pos.iter_succ. simpl. rewrite IH. lia.
Qed.

Lemma pos_iter_xO p k : Z.pos (Pos.iter xO p k) = Z.pos p * 2 ^ Z.pos k.
Proof.
  induction k as [|k IH] using Pos.peano_ind.
  - simpl. lia.
  - rewrite Pos.iter_succ, Pos2Z.inj_succ, Z.pow_succ_r by lia.
    rewrite Pos2Z.inj_xO, IH. lia.
Qed.

Lemma digits2_pos_bounds p :
  2 ^ (Z.pos (digits2_pos p) - 1) ≤ Z.pos p < 2 ^ Z.pos (digits2_pos p).
Proof.
  induction p as [p IH|p IH|]; [| |by simpl].
  all: cbn [digits2_pos]; rewrite Pos2Z.inj_succ.
  all: replace (Z.succ (Z.pos (digits2_pos p)) - 1)
         with (Z.succ (Z.pos (digits2_pos p) - 1)) by lia.
  all: rewrite !Z.pow_succ_r by lia; lia.
Qed.

Lemma digits2_pos_le p : Z.pos p < 2 ^ 53 → Z.pos (digits2_pos p) ≤ 53.
Proof.
  intros Hp. destruct (decide (Z.pos (digits2_pos p) ≤ 53)) as [|Hd]; [done|].
  pose proof (digits2_pos_bounds p) as [Hlow _].
  assert (2 ^ 53 ≤ 2 ^ (Z.pos (digits2_pos p) - 1))
    by (apply Z.pow_le_mono_r; lia).
  lia.
Qed.

Lemma fexp_normal e : -1021 ≤ e → fexp prec emax e = e - 53.
Proof. unfold fexp, SpecFloat.emin, prec, emax. lia. Qed.

Lemma shr_fexp_exact m e l :
  fexp prec emax (Zdigits2 m + e) = e →
  shr_fexp prec emax m e l = (shr_record_of_loc m l, e).
Proof. unfold shr_fexp. intros ->. by rewrite Z.sub_diag. Qed.

(** A mantissa of 53 bits with an exponent in range needs no rounding. *)
Lemma binary_round_aux_canonical s m e :
  Z.pos (digits2_pos m) = 53 → -1074 ≤ e ≤ 971 →
  binary_round_aux prec emax s (Z.pos m) e loc_Exact = S754_finite s m e.
Proof.
  intros Hd He. unfold binary_round_aux.
  assert (fexp prec emax (Zdigits2 (Z.pos m) + e) = e) as Hexp.
  { simpl. rewrite Hd. unfold fexp, SpecFloat.emin, prec, emax. lia. }
  rewrite (shr_fexp_exact _ _ _ Hexp). simpl.
  rewrite (shr_fexp_exact _ _ _ Hexp). simpl.
  assert ((e <=? emax - prec) = true) as ->
    by (apply Z.leb_le; unfold emax, prec; lia).
  done.
Qed.

(** The conversion of an integer below 2^53 shifts it to 53 bits. *)
Lemma binary_round_small s p :
  Z.pos p < 2 ^ 53 →
  ∃ m e, binary_round prec emax s p 0 = S754_finite s m e
         ∧ Z.pos (digits2_pos m) = 53 ∧ -52 ≤ e ≤ 0
         ∧ Z.pos m = Z.pos p * 2 ^ (- e).
Proof.
  intros Hd%digits2_pos_le. unfold binary_round.
  rewrite Z.add_0_r, fexp_normal by lia. unfold shl_align.
  destruct (Z.pos (digits2_pos p) - 53 - 0) as [|k|k] eqn:Hk; [|lia|].
  - exists p, 0. rewrite binary_round_aux_canonical by lia.
    split_and!; try done; lia.
  - exists (Pos.iter xO p k), (Z.pos (digits2_pos p) - 53).
    assert (Z.pos (digits2_pos (Pos.iter xO p k)) = 53) as Hd'.
    { rewrite digits2_pos_iter. lia. }
    rewrite binary_round_aux_canonical by lia.
    split_and!; try done; try lia.
    rewrite pos_iter_xO. do 2 f_equal. lia.
Qed.

Lemma int_of_float_scaled s m e z :
  -52 ≤ e ≤ 0 → Z.pos m = Z.abs z * 2 ^ (- e) → s = (z <? 0) →
  int_of_float (S754_finite s m e) = Some z.
Proof.
  intros He Hm ->. unfold int_of_float.
  assert (cond_Zopp (z <? 0) (Z.pos m) = z * 2 ^ (- e)) as ->.
  { rewrite Hm. unfold cond_Zopp. destruct (Z.ltb_spec z 0); lia. }
  destruct e as [|k|k]; [|lia|].
  - f_equal. simpl. lia.
  - change (- Z.neg k) with (Z.pos k).
    rewrite Z.mod_mul, Z.div_mul by lia. done.
Qed.

(** The float64 of an integer of magnitude at most 2^53 is a normal
    number whose value is the integer. *)
Lemma float_of_int_exact z :
  z ≠ 0 → Z.abs z ≤ 2 ^ 53 →
  ∃ m e, float_of_int z = S754_finite (z <? 0) m e
         ∧ Z.pos (digits2_pos m) = 53 ∧ -52 ≤ e ≤ 1
         ∧ int_of_float (float_of_int z) = Some z.
Proof.
  intros Hz Hle.
  destruct (decide (Z.abs z = 2 ^ 53)) as [Hmax|Hlt].
  - exists 4503599627370496%positive, 1.
    assert (z = 2 ^ 53 ∨ z = - 2 ^ 53) as [->| ->] by lia; by vm_compute.
  - destruct z as [|p|p]; [done|..].
    + destruct (binary_round_small false p) as (m & e & Hm & Hd & He & Hv);
        [simpl in *; lia|].
      exists m, e. unfold float_of_int, binary_normalize. rewrite Hm.
      split_and!; try done; try lia.
      apply int_of_float_scaled; [done|by rewrite Hv|done].
    + destruct (binary_round_small true p) as (m & e & Hm & Hd & He & Hv);
        [simpl in *; lia|].
      exists m, e. unfold float_of_int, binary_normalize. rewrite Hm.
      split_and!; try done; try lia.
      apply int_of_float_scaled; [done|by rewrite Hv|done].
Qed.

Lemma int_of_float_of_int z :
  Z.abs z ≤ 2 ^ 53 → int_of_float (float_of_int z) = Some z.
Proof.
  intros Hle. destruct (decide (z = 0)) as [->|Hz]; [done|].
  by destruct (float_of_int_exact z Hz Hle) as (? & ? & _ & _ & _ & ?).
Qed.

Lemma div_eucl_exact a b q : 0 < b → a = q * b → Z.div_eucl a b = (q, 0).
Proof.
  intros Hb ->.
  pose proof (Z.div_mul q b) as Hq. pose proof (Z.mod_mul q b) as Hr.
  unfold Z.div, Z.modulo in Hq, Hr.
  destruct (Z.div_eucl (q * b) b) as [q' r'].
  f_equal; [apply Hq|apply Hr]; lia.
Qed.

(** The division of a normal number by 1.0 gives the number. *)
Lemma float_div_one s m e :
  Z.pos (digits2_pos m) = 53 → -1000 ≤ e ≤ 971 →
  float_div (S754_finite s m e) (float_of_int 1) = S754_finite s m e.
Proof.
  intros Hd He.
  change (float_of_int 1) with (S754_finite false 4503599627370496 (-52)).
  unfold float_div, SFdiv, SFdiv_core_binary. cbn [Zdigits2]. rewrite Hd.
  change (Z.pos (digits2_pos 4503599627370496)) with 53.
  replace (Z.min (fexp prec emax (53 + e - (53 + -52))) (e - -52))
    with (e - 1) by (unfold fexp, SpecFloat.emin, prec, emax; lia).
  replace (e - -52 - (e - 1)) with 53 by lia.
  rewrite (div_eucl_exact _ _ (Z.pos m~0)); [|done|].
  2:{ rewrite Z.shiftl_mul_pow2 by done. lia. }
  change (new_location 4503599627370496 0) with loc_Exact.
  rewrite xorb_false_r.
  unfold binary_round_aux, shr_fexp. cbn [Zdigits2 digits2_pos].
  rewrite Pos2Z.inj_succ, Hd.
  replace (fexp prec emax (Z.succ 53 + (e - 1)) - (e - 1)) with 1
    by (unfold fexp, SpecFloat.emin, prec, emax; lia).
  cbn [shr_record_of_loc shr iter_pos shr_1 orb loc_of_shr_record
       round_nearest_even shr_m].
  cbn [Zdigits2]. rewrite Hd.
  replace (fexp prec emax (53 + (e - 1 + 1)) - (e - 1 + 1)) with 0
    by (unfold fexp, SpecFloat.emin, prec, emax; lia).
  cbn [shr shr_m].
  replace (e - 1 + 1) with e by lia.
  assert ((e <=? emax - prec) = true) as ->
    by (apply Z.leb_le; unfold emax, prec; lia).
  done.
Qed.

(** The mean of a group of one value of magnitude at most 2^53 is the
    float64 of the value: the sum and the division by 1.0 are exact. *)
Lemma mean_singleton z : Z.abs z ≤ 2 ^ 53 → mean [z] = float_of_int z.
Proof.
  intros Hle. destruct (decide (z = 0)) as [->|Hz]; [done|].
  destruct (float_of_int_exact z Hz Hle) as (m & e & Hm & Hd & He & _).
  unfold mean, kahan_step, float_add, float_sub. simpl. rewrite Hm. simpl.
  apply float_div_one; [done|lia].
Qed.

#[local] Close Scope Z_scope.

Section heatmap_facts.
Context {T : Type} (data : list T) (row_col col_col : T → key)
  (value_col : T → Z).

Lemma group_at_absent_row r c :
  r ∉ m_index (pivot_table data value_col row_col col_col) →
  group_at data row_col col_col r c = [].
Proof.
  simpl. rewrite elem_of_axis. intros Hr.
  apply filter_none. intros x Hx [Hrow _]. eauto.
Qed.

Lemma group_at_absent_col r c :
  c ∉ m_columns (pivot_table data value_col row_col col_col) →
  group_at data row_col col_col r c = [].
Proof.
  simpl. rewrite elem_of_axis. intros Hc.
  apply filter_none. intros x Hx [_ Hcol]. eauto.
Qed.

Lemma pivot_table_cell i j r c :
  m_index (pivot_table data value_col row_col col_col) !! i = Some r →
  m_columns (pivot_table data value_col row_col col_col) !! j = Some c →
  m_values (pivot_table data value_col row_col col_col) !! i ≫= (.!! j)
    = Some (cell_at data value_col row_col col_col r c).
Proof.
  apply (lookup_for_each2 (cell_at data value_col row_col col_col)).
Qed.

(** Every cell of the matrix is the cell of the pivot table at its keys,
    also at keys the pivot table does not have. *)
Lemma create_heatmap_data_cell row_items col_items i j r c :
  row_items !! i = Some r → col_items !! j = Some c →
  m_values (create_heatmap_data data row_col col_col value_col
              row_items col_items) !! i ≫= (.!! j)
    = Some (cell_at data value_col row_col col_col r c).
Proof.
  intros Hi Hj. unfold create_heatmap_data.
  rewrite (reindex_cell _ _ _ _ _ _ _ _ Hi Hj). f_equal.
  set (pivot := pivot_table data value_col row_col col_col).
  destruct (position r (m_index pivot)) as [i'|] eqn:Hr.
  - destruct (position c (m_columns pivot)) as [j'|] eqn:Hc.
    + apply position_Some in Hr, Hc. subst pivot.
      by rewrite (pivot_table_cell _ _ _ _ Hr Hc).
    + apply position_None in Hc.
      unfold cell_at. by rewrite (group_at_absent_col r c Hc).
  - apply position_None in Hr.
    unfold cell_at. by rewrite (group_at_absent_row r c Hr).
Qed.

Lemma group_at_unique x :
  NoDup ((λ x, (row_col x, col_col x)) <$> data) →
  x ∈ data → group_at data row_col col_col (row_col x) (col_col x) = [x].
Proof.
  unfold group_at. induction data as [|y l IH]; intros Hnd Hx.
  - by apply elem_of_nil in Hx.
  - rewrite fmap_cons in Hnd.
    pose proof (NoDup_cons_1_1 _ _ Hnd) as Hy.
    pose proof (NoDup_cons_1_2 _ _ Hnd) as Hl.
    rewrite filter_cons. apply elem_of_cons in Hx as [->|Hx].
    + rewrite decide_True by done. f_equal.
      apply filter_none. intros z Hz [Hr Hc].
      apply Hy, list_elem_of_fmap. exists z. by rewrite Hr, Hc.
    + rewrite decide_False; [by apply IH|].
      intros [Hr Hc]. apply Hy, list_elem_of_fmap.
      exists x. by rewrite Hr, Hc.
Qed.

(** C4: for a cross table with at most one row for each pair of keys,
    whose values are integers of magnitude at most 2^53 (the integers
    that float64 holds exactly), and any two sequences of keys, the
    matrix has these sequences as its row and column labels, in their
    order, one row of cells for each row label and one cell in it for
    each column label; the cell at (r, c) holds the value of the cross
    table at (r, c) when it has one (as a float64, whose value is that
    integer) and 0 when it has none, whether or not the keys occur in
    the cross table. *)
Theorem create_heatmap_data_dense (row_items col_items : list key) :
  NoDup ((λ x, (row_col x, col_col x)) <$> data) →
  (∀ x, x ∈ data → (Z.abs (value_col x) ≤ 2 ^ 53)%Z) →
  let m := create_heatmap_data data row_col col_col value_col
             row_items col_items in
  m_index m = row_items
  ∧ m_columns m = col_items
  ∧ length (m_values m) = length row_items
  ∧ Forall (λ cells, length cells = length col_items) (m_values m)
  ∧ ∀ i j r c,
      row_items !! i = Some r → col_items !! j = Some c →
      ∃ v,
        m_values m !! i ≫= (.!! j) = Some v
        ∧ (∀ x, x ∈ data → row_col x = r → col_col x = c →
                v = float_of_int (value_col x)
                ∧ int_of_float v = Some (value_col x))
        ∧ ((∀ x, x ∈ data → ¬ (row_col x = r ∧ col_col x = c)) →
           v = float_zero).
Proof.
  intros Hnd Hbound m. split_and!; try done.
  - apply length_fmap.
  - apply Forall_forall. intros cells Hcells.
    apply list_elem_of_fmap in Hcells as (r & -> & _). apply length_fmap.
  - intros i j r c Hi Hj.
    exists (cell_at data value_col row_col col_col r c). split_and!.
    + by apply create_heatmap_data_cell.
    + intros x Hx <- <-. unfold cell_at.
      rewrite (group_at_unique x Hnd Hx). simpl.
      rewrite mean_singleton by by apply Hbound.
      split; [done|]. apply int_of_float_of_int. by apply Hbound.
    + intros Hnone. unfold cell_at, group_at.
      by rewrite filter_none.
Qed.
End heatmap_facts.

Lemma create_heatmap_data_dense_witness :
  m_values (create_heatmap_data cross_example key2 key1 (Z.of_nat ∘ counts)
              [KStr (py "Z"); KStr (py "Q"); KStr (py "X")]
              [KInt 2021; KInt 2019; KInt 2020])
    = (λ cells : list Z, float_of_int <$> cells)
        <$> [[1; 0; 0]; [0; 0; 0]; [5; 0; 2]]%Z
  ∧ let m := create_heatmap_data cross_example key2 key1 (Z.of_nat ∘ counts)
               [KStr (py "Z"); KStr (py "Q"); KStr (py "X")]
               [KInt 2021; KInt 2019; KInt 2020] in
    m_index m = [KStr (py "Z"); KStr (py "Q"); KStr (py "X")]
    ∧ m_columns m = [KInt 2021; KInt 2019; KInt 2020]
    ∧ length (m_values m) = 3
    ∧ Forall (λ cells, length cells = 3) (m_values m)
    ∧ ∀ i j r c,
        [KStr (py "Z"); KStr (py "Q"); KStr (py "X")] !! i = Some r →
        [KInt 2021; KInt 2019; KInt 2020] !! j = Some c →
        ∃ v,
          m_values m !! i ≫= (.!! j) = Some v
          ∧ (∀ x, x ∈ cross_example → key2 x = r → key1 x = c →
                  v = float_of_int (Z.of_nat (counts x))
                  ∧ int_of_float v = Some (Z.of_nat (counts x)))
          ∧ ((∀ x, x ∈ cross_example → ¬ (key2 x = r ∧ key1 x = c)) →
             v = float_zero).
Proof.
  split; [by vm_compute|].
  apply (create_heatmap_data_dense cross_example key2 key1 (Z.of_nat ∘ counts)).
  - apply (bool_decide_unpack _). by vm_compute.
  - apply Forall_forall. apply (bool_decide_unpack _). by vm_compute.
Defined.

(** ** The secondary analysis *)

Lemma dropna_present subset df :
  Forall (λ c, c ∈ columns df) subset →
  dropna subset df = Some (select (populated subset) df).
Proof. intros H. unfold dropna. by rewrite decide_True. Qed.

Lemma dropna_rows subset df df' :
  dropna subset df = Some df' →
  rows df' = filter (populated subset) (rows df).
Proof. unfold dropna. case_decide; [|done]. by intros [= <-]. Qed.

Lemma analyze_try_total_records df df_applicants r w :
  analyze_try df df_applicants = Some (Some r, w) →
  w = []
  ∧ 0 < total_records r
  ∧ total_records r
    = length (filter (populated [col_problem; col_solution]) (rows df)).
Proof.
  unfold analyze_try. intros H.
  destruct (dropna _ df) as [df_filtered|] eqn:Hdrop; [|done].
  simpl in H.
  apply dropna_rows in Hdrop as Hrows.
  case_decide as Hlen; [done|].
  destruct (get_column col_problem df_filtered ≫= value_counts); [|done].
  destruct (get_column col_solution df_filtered ≫= value_counts); [|done].
  simpl in H.
  destruct (get_column col_problem df_filtered); [|done].
  destruct (get_column col_solution df_filtered); [|done].
  simpl in H.
  destruct (crosstab _ _); [|done].
  simpl in H.
  destruct (if decide (col_year ∈ columns df_filtered) then _ else _);
    [|done].
  simpl in H.
  destruct (analyze_applicants df_applicants); [|done].
  simpl in H. injection H as <- <-. simpl.
  rewrite <- Hrows. split_and!; [done|lia|done].
Qed.

(** C8, as the specification states it, does not hold: both category
    columns are there and no row has both categories, and the analysis
    returns the absent result, with a warning, not a result whose
    [total_records] is 0. *)
Lemma analyze_unpopulated_is_absent :
  col_problem ∈ columns unpopulated_example
  ∧ col_solution ∈ columns unpopulated_example
  ∧ Forall (λ row, ¬ populated [col_problem; col_solution] row)
           (rows unpopulated_example)
  ∧ analyze_problem_solution_data unpopulated_example None
    = (None, [InsufficientData])
  ∧ ¬ ∃ r,
        (analyze_problem_solution_data unpopulated_example None).1 = Some r
        ∧ total_records r = 0.
Proof.
  split_and!.
  - apply (bool_decide_unpack _). by vm_compute.
  - apply (bool_decide_unpack _). by vm_compute.
  - apply (bool_decide_unpack _). by vm_compute.
  - by vm_compute.
  - intros (r & Hr & _). vm_compute in Hr. discriminate Hr.
Qed.

(** C8 (amended): the analysis returns the absent result, without a
    warning, when one of the two category columns is missing; it returns
    the absent result with the warning of insufficient data, and does not
    fail, when both columns are there and no row has both categories; and
    a result that is not absent comes without a warning and has a
    positive [total_records], the number of rows with both categories. *)
Theorem analyze_absent_or_populated df df_applicants :
  (col_problem ∉ columns df ∨ col_solution ∉ columns df →
   analyze_problem_solution_data df df_applicants = (None, []))
  ∧ (col_problem ∈ columns df → col_solution ∈ columns df →
     Forall (λ row, ¬ populated [col_problem; col_solution] row) (rows df) →
     analyze_problem_solution_data df df_applicants
       = (None, [InsufficientData]))
  ∧ (∀ r w,
       analyze_problem_solution_data df df_applicants = (Some r, w) →
       col_problem ∈ columns df ∧ col_solution ∈ columns df
       ∧ w = [] ∧ 0 < total_records r
       ∧ total_records r
         = length (filter (populated [col_problem; col_solution]) (rows df))).
Proof.
  unfold analyze_problem_solution_data. split_and!.
  - intros Hmissing. by rewrite decide_True.
  - intros Hp Hs Hnone. rewrite decide_False by tauto.
    unfold analyze_try. rewrite dropna_present by (repeat constructor; done).
    simpl. rewrite filter_none; [done|].
    intros row Hrow. by apply (proj1 (Forall_forall _ _) Hnone).
  - intros r w H. case_decide as Hcols; [done|].
    assert (col_problem ∈ columns df ∧ col_solution ∈ columns df) as [Hp Hs].
    { split; apply dec_stable; tauto. }
    destruct (analyze_try df df_applicants) as [[o w']|] eqn:Htry; [|done].
    injection H as -> ->.
    destruct (analyze_try_total_records _ _ _ _ Htry) as (? & ? & ?).
    done.
Qed.

Lemma analyze_absent_or_populated_witness :
  analyze_problem_solution_data processed_example None = (None, [])
  ∧ analyze_problem_solution_data unpopulated_example None
    = (None, [InsufficientData])
  ∧ ∃ r,
      analyze_problem_solution_data categories_example None = (Some r, [])
      ∧ total_records r = 2.
Proof.
  split_and!.
  - apply (analyze_absent_or_populated processed_example None).
    left. apply (bool_decide_unpack _). by vm_compute.
  - apply (analyze_absent_or_populated unpopulated_example None).
    + apply (bool_decide_unpack _). by vm_compute.
    + apply (bool_decide_unpack _). by vm_compute.
    + apply (bool_decide_unpack _). by vm_compute.
  - eexists. split; [vm_compute; reflexivity|].
    destruct (analyze_absent_or_populated categories_example None)
      as (_ & _ & Hsome).
    edestruct Hsome as (_ & _ & _ & _ & ->); [vm_compute; reflexivity|].
    reflexivity.
Defined.

(** ** [preprocess_data], row by row *)

Lemma get_column_Some c df col :
  get_column c df = Some col → c ∈ columns df ∧ col = cell c <$> rows df.
Proof. unfold get_column. case_decide; [|done]. by intros [= <-]. Qed.

Lemma set_column_rows_fmap c c0 (f : value → value) df :
  rows (set_column c (f <$> (cell c0 <$> rows df)) df)
    = (λ row, <[c := f (cell c0 row)]> row) <$> rows df.
Proof.
  simpl. apply list_eq. intros i.
  rewrite list_lookup_imap, !list_lookup_fmap.
  by destruct (rows df !! i).
Qed.

Lemma set_column_rows_mapM c c0 (f : value → option value) df vals :
  mapM f (cell c0 <$> rows df) = Some vals →
  rows (set_column c vals df)
    = (λ row, <[c := default VNaN (f (cell c0 row))]> row) <$> rows df.
Proof.
  intros Hvals%mapM_Some_1. simpl. apply list_eq. intros i.
  rewrite list_lookup_imap, list_lookup_fmap.
  destruct (rows df !! i) as [row|] eqn:Hrow; [|done]. simpl.
  destruct (Forall2_lookup_l _ _ _ i (cell c0 row) Hvals) as (v & Hv & Hf).
  { by rewrite list_lookup_fmap, Hrow. }
  by rewrite Hv, Hf.
Qed.

Lemma set_column_rows_imap c vals df :
  rows (set_column c vals df)
    = imap (λ i row, <[c := default VNaN (vals !! i)]> row) (rows df).
Proof. done. Qed.

Ltac cols_differ :=
  let H := fresh in intros H; vm_compute in H; discriminate H.

Lemma cell_insert_ne c c' v row : c' ≠ c → cell c (<[c' := v]> row) = cell c row.
Proof. intros. unfold cell. by rewrite lookup_insert_ne. Qed.

Lemma cell_insert c v row : cell c (<[c := v]> row) = v.
Proof. unfold cell. by rewrite lookup_insert_eq. Qed.

Lemma cell_fi_list_split_row year row :
  cell col_fi_list (split_row year row)
    = str_split_fi (fillna_empty (cell col_FI row)).
Proof.
  unfold split_row. rewrite cell_insert.
  by rewrite !cell_insert_ne by cols_differ.
Qed.

Lemma normalize_row_other year row c :
  c ∉ [col_year; col_applicant; col_applicants_list; col_fi_list] →
  normalize_row year row !! c = row !! c.
Proof.
  intros Hc. unfold normalize_row, split_row.
  rewrite !lookup_insert_ne; [done|..]; intros <-; apply Hc; set_solver.
Qed.

Lemma normalize_row_applicant year row :
  normalize_row year row !! col_applicant
    = Some (str_replace_markers (cell col_applicant row)).
Proof.
  unfold normalize_row, split_row.
  rewrite !(lookup_insert_ne _ col_fi_list) by cols_differ.
  rewrite (lookup_insert_ne _ col_applicants_list) by cols_differ.
  rewrite lookup_insert_eq, cell_insert_ne by cols_differ. done.
Qed.

Lemma normalize_row_applicants_list year row :
  normalize_row year row !! col_applicants_list
    = Some (str_split_comma (str_replace_markers (cell col_applicant row))).
Proof.
  unfold normalize_row, split_row.
  rewrite !(lookup_insert_ne _ col_fi_list) by cols_differ.
  rewrite lookup_insert_eq, cell_insert.
  rewrite cell_insert_ne by cols_differ. done.
Qed.

Lemma normalize_row_fi_list year row :
  normalize_row year row !! col_fi_list
    = Some (default VNaN (fi_list_cell (cell col_FI row))).
Proof.
  unfold normalize_row, split_row, fi_list_cell.
  rewrite lookup_insert_eq, cell_insert.
  rewrite !cell_insert_ne by cols_differ. done.
Qed.

Section preprocess_facts.
Variable to_datetime_year : list value → option (list (option Z)).

(** When [preprocess_data] returns the table, every row of it is the
    row of the input with the five assignments made, and the filter of
    the code pieces has raised on no row. *)
Lemma preprocess_data_rows df df' :
  preprocess_data to_datetime_year df = (df', Some ()) →
  ∃ years,
    to_datetime_year (cell col_date <$> rows df) = Some years
    ∧ columns df ⊆ columns df'
    ∧ rows df'
      = imap (λ i row,
                normalize_row (default VNaN ((year_cell <$> years) !! i)) row)
             (rows df)
    ∧ Forall (λ row, is_Some (fi_list_cell (cell col_FI row))) (rows df).
Proof.
  unfold preprocess_data, mbind, update_bind, read_col, assign_col, or_raise.
  intros H.
  destruct (get_column col_date df) as [dates|] eqn:Hdates; [|done].
  apply get_column_Some in Hdates as [_ ->].
  destruct (to_datetime_year _) as [years|] eqn:Hyears; [|done].
  set (df1 := set_column col_year (year_cell <$> years) df) in *.
  destruct (get_column col_applicant df1) as [app|] eqn:Happ; [|done].
  apply get_column_Some in Happ as [_ ->].
  destruct (str_accessor (cell col_applicant <$> rows df1)) as [[]|]; [|done].
  set (df2 := set_column col_applicant _ df1) in *.
  destruct (get_column col_applicant df2) as [app|] eqn:Happ; [|done].
  apply get_column_Some in Happ as [_ ->].
  set (df3 := set_column col_applicants_list _ df2) in *.
  destruct (get_column col_FI df3) as [fi|] eqn:Hfi; [|done].
  apply get_column_Some in Hfi as [_ ->].
  destruct (str_accessor (fillna_empty <$> (cell col_FI <$> rows df3)))
    as [[]|]; [|done].
  rewrite <- list_fmap_compose in H.
  set (df4 := set_column col_fi_list _ df3) in *.
  destruct (get_column col_fi_list df4) as [fil|] eqn:Hfil; [|done].
  apply get_column_Some in Hfil as [_ ->].
  destruct (mapM keep_nonblank _) as [kept|] eqn:Hkept; [|done].
  injection H as <-.
  assert (rows df4
          = imap (λ i row,
                    split_row (default VNaN ((year_cell <$> years) !! i)) row)
                 (rows df)) as Hrows4.
  { unfold df4. rewrite set_column_rows_fmap.
    unfold df3. rewrite set_column_rows_fmap.
    unfold df2. rewrite set_column_rows_fmap.
    unfold df1. rewrite set_column_rows_imap.
    rewrite <- !list_fmap_compose, fmap_imap.
    by apply imap_ext. }
  exists years. split_and!; [done|simpl; set_solver|..].
  - rewrite (set_column_rows_mapM _ _ _ _ _ Hkept), Hrows4, fmap_imap.
    by apply imap_ext.
  - apply Forall_lookup. intros i row Hrow.
    assert (is_Some (mapM keep_nonblank (cell col_fi_list <$> rows df4)))
      as Hsome by by rewrite Hkept.
    apply mapM_is_Some_1 in Hsome.
    rewrite Forall_fmap, Hrows4 in Hsome.
    unfold fi_list_cell. rewrite <- (cell_fi_list_split_row
      (default VNaN ((year_cell <$> years) !! i)) row).
    apply (proj1 (Forall_lookup _ _) Hsome i
             (split_row (default VNaN ((year_cell <$> years) !! i)) row)).
    by rewrite list_lookup_imap, Hrow.
Qed.

Lemma preprocess_data_row df df' i row row' :
  preprocess_data to_datetime_year df = (df', Some ()) →
  rows df !! i = Some row → rows df' !! i = Some row' →
  ∃ year, row' = normalize_row year row.
Proof.
  intros (years & _ & _ & Hrows & _)%preprocess_data_rows Hrow Hrow'.
  rewrite Hrows, list_lookup_imap, Hrow in Hrow'.
  injection Hrow' as <-. eauto.
Qed.

(** A record with an applicant text leaves [preprocess_data] normalized:
    it is then in the domain of the row counts of [expand_data]. *)
Lemma preprocess_data_normalized df df' i row row' s :
  preprocess_data to_datetime_year df = (df', Some ()) →
  rows df !! i = Some row → rows df' !! i = Some row' →
  row !! col_applicant = Some (VStr s) →
  normalized row'.
Proof.
  intros H Hrow Hrow' Hs.
  destruct (preprocess_data_row _ _ _ _ _ H Hrow Hrow') as [year ->].
  destruct (preprocess_data_rows _ _ H) as (_ & _ & _ & _ & Hfi).
  apply (proj1 (Forall_lookup _ _) Hfi i row) in Hrow as [v Hv].
  assert (∃ fis, v = VList fis) as [fis ->].
  { unfold fi_list_cell, keep_nonblank in Hv.
    destruct (iter_value _); [|done]. injection Hv as <-. eauto. }
  exists (split_comma (remove_markers s)), fis. split.
  - rewrite normalize_row_applicants_list. unfold cell. by rewrite Hs.
  - rewrite normalize_row_fi_list. by rewrite Hv.
Qed.

(** C9 (amended): when [preprocess_data] returns the table, the table
    has the rows and the columns it had, and in every row every column
    other than the applicant column and the three derived columns
    ([year], [applicants_list], [fi_list]) holds what it held; the
    applicant column is overwritten with the text without its markers
    (a cell that is not a string, with the missing value). *)
Theorem preprocess_data_frame df df' :
  preprocess_data to_datetime_year df = (df', Some ()) →
  length (rows df') = length (rows df)
  ∧ columns df ⊆ columns df'
  ∧ ∀ i row row',
      rows df !! i = Some row → rows df' !! i = Some row' →
      row' !! col_applicant
        = Some (str_replace_markers (cell col_applicant row))
      ∧ ∀ c,
          c ∉ [col_year; col_applicant; col_applicants_list; col_fi_list] →
          row' !! c = row !! c.
Proof.
  intros H.
  destruct (preprocess_data_rows _ _ H) as (years & _ & Hcols & Hrows & _).
  split_and!; [|done|].
  - by rewrite Hrows, length_imap.
  - intros i row row' Hrow Hrow'.
    destruct (preprocess_data_row _ _ _ _ _ H Hrow Hrow') as [year ->].
    split; [apply normalize_row_applicant|].
    intros c Hc. by apply normalize_row_other.
Qed.
End preprocess_facts.

(** C9, as the specification states it, does not hold: the raw applicant
    string is not preserved; [preprocess_data] returns the table with the
    applicant column overwritten by the text without its markers. *)
Lemma preprocess_data_overwrites_applicant :
  (preprocess_data iso_years raw_example).2 = Some ()
  ∧ get_column col_applicant raw_example
    = Some [VStr (marker_up :: py "a,b,c,d,e,f,g,h,i,j,k,l");
            VStr (py "a, b"); VStr (py "a")]
  ∧ get_column col_applicant (preprocess_data iso_years raw_example).1
    = Some [VStr (py "a,b,c,d,e,f,g,h,i,j,k,l");
            VStr (py "a, b"); VStr (py "a")]
  ∧ get_column col_applicant (preprocess_data iso_years raw_example).1
    ≠ get_column col_applicant raw_example.
Proof.
  split_and!; by vm_compute.
Qed.

Lemma preprocess_data_frame_witness :
  length (rows processed_example) = length (rows raw_example)
  ∧ columns raw_example ⊆ columns processed_example
  ∧ ∀ i row row',
      rows raw_example !! i = Some row →
      rows processed_example !! i = Some row' →
      row' !! col_applicant
        = Some (str_replace_markers (cell col_applicant row))
      ∧ ∀ c,
          c ∉ [col_year; col_applicant; col_applicants_list; col_fi_list] →
          row' !! c = row !! c.
Proof.
  apply (preprocess_data_frame iso_years raw_example processed_example).
  vm_compute. reflexivity.
Defined.

(** ** Empty fields *)

Lemma lstrip_all_space s :
  Forall (λ c, is_space c = true) (lstrip s) →
  Forall (λ c, is_space c = true) s.
Proof.
  induction s as [|c s IH]; simpl; [done|].
  destruct (is_space c) eqn:Hc; [|done].
  intros H. constructor; auto.
Qed.

Lemma blank_all_space s : blank s → Forall (λ c, is_space c = true) s.
Proof.
  unfold blank, strip, rstrip. intros H.
  apply lstrip_all_space, Forall_reverse, lstrip_all_space.
  apply (f_equal reverse) in H. rewrite reverse_involutive in H.
  rewrite H. constructor.
Qed.

Lemma split_fi_no_comma s : Forall (λ c, c ≠ comma) s → split_fi s = [s].
Proof.
  induction 1 as [|c s Hc _ IH]; simpl; [done|].
  destruct (N.eqb_spec c comma); [done|]. simpl. by rewrite IH.
Qed.

Lemma space_not_comma c : is_space c = true → c ≠ comma.
Proof. intros H ->. vm_compute in H. discriminate H. Qed.

Lemma fi_list_cell_blank s :
  blank s → fi_list_cell (VStr s) = Some (VList []).
Proof.
  intros Hs. unfold fi_list_cell. simpl.
  rewrite split_fi_no_comma.
  - unfold keep_nonblank. simpl. rewrite filter_cons, decide_False; [done|].
    unfold nonblank. by intros [].
  - eapply Forall_impl; [by apply blank_all_space|].
    apply space_not_comma.
Qed.

Lemma occurrences_pos {A} `{EqDecision A} (x : A) (l : list A) :
  x ∈ l → 0 < occurrences x l.
Proof.
  intros Hx. unfold occurrences.
  assert (x ∈ filter (λ y, y = x) l) as Hin by by apply list_elem_of_filter.
  destruct (filter _ l); [by apply elem_of_nil in Hin|simpl; lia].
Qed.

(** A string cell of a column is one of the entities of its frequency
    table. *)
Lemma value_counts_string col table s :
  VStr s ∈ col → value_counts col = Some table →
  ∃ n, 0 < n ∧ (KStr s, n) ∈ table.
Proof.
  intros Hs (labels & Hlabels & Hperm)%value_counts_inv.
  assert (KStr s ∈ omap id labels) as Hk.
  { apply list_elem_of_lookup in Hs as [i Hi].
    apply mapM_Some_1 in Hlabels.
    destruct (Forall2_lookup_l _ _ _ _ _ Hlabels Hi) as (o & Ho & Heq).
    simpl in Heq. injection Heq as <-.
    apply list_elem_of_omap. exists (Some (KStr s)).
    split; [|done]. by eapply list_elem_of_lookup_2. }
  exists (occurrences (KStr s) (omap id labels)). split.
  - by apply occurrences_pos.
  - rewrite Hperm. by apply elem_of_tally.
Qed.

Lemma expand_data_applicants df df_applicants df_fi df_applicants_fi :
  expand_data df = Some (df_applicants, df_fi, df_applicants_fi) →
  ∃ expanded,
    mapM expand_applicant (rows df) = Some expanded
    ∧ rows df_applicants = mjoin expanded.
Proof.
  unfold expand_data. intros H.
  destruct (mapM expand_applicant (rows df)) as [a|]; [|done].
  destruct (mapM expand_fi (rows df)) as [f|]; [|done].
  destruct (mapM expand_applicant_fi (rows df)) as [af|]; [|done].
  injection H as <- _ _. by exists a.
Qed.

(** The rows a record expands to are rows of the expanded table. *)
Lemma expand_data_applicant_row df df_applicants df_fi df_applicants_fi
    i row out new_row :
  expand_data df = Some (df_applicants, df_fi, df_applicants_fi) →
  rows df !! i = Some row → expand_applicant row = Some out →
  new_row ∈ out → new_row ∈ rows df_applicants.
Proof.
  intros (expanded & Hexp & ->)%expand_data_applicants Hrow Hout Hnew.
  apply mapM_Some_1 in Hexp.
  destruct (Forall2_lookup_l _ _ _ _ _ Hexp Hrow) as (out' & Hi & Hout').
  assert (out' = out) as -> by congruence.
  apply list_elem_of_join. exists out. split; [done|].
  by eapply list_elem_of_lookup_2.
Qed.

Section empty_fields.
Variable to_datetime_year : list value → option (list (option Z)).

(** C10: in a table that [preprocess_data] returns, a record whose
    applicant text is empty once the markers are removed gives, in the
    expansion by applicant, exactly one row, with the empty string as its
    applicant, and the empty string is then one of the entities of the
    frequency table of the applicants; a record whose classification code
    is empty or white space only gives no row in the expansion by code. *)
Theorem empty_fields_expansion df df' i row row' :
  preprocess_data to_datetime_year df = (df', Some ()) →
  rows df !! i = Some row → rows df' !! i = Some row' →
  (∀ s, row !! col_applicant = Some (VStr s) → remove_markers s = [] →
        expand_applicant row' = Some [<[col_applicant := VStr []]> row']
        ∧ ∀ df_applicants df_fi df_applicants_fi res,
            expand_data df' = Some (df_applicants, df_fi, df_applicants_fi) →
            aggregate_data df' df_applicants df_fi df_applicants_fi
              = Some res →
            ∃ n, 0 < n ∧ (KStr [], n) ∈ applicant_counts res)
  ∧ (∀ s, row !! col_FI = Some (VStr s) → blank s →
          expand_fi row' = Some []).
Proof.
  intros H Hrow Hrow'.
  destruct (preprocess_data_row _ _ _ _ _ _ H Hrow Hrow') as [year ->].
  split.
  - intros s Hs Hempty.
    assert (normalize_row year row !! col_applicants_list
            = Some (VList [[]])) as Hlist.
    { rewrite normalize_row_applicants_list. unfold cell. rewrite Hs. simpl.
      by rewrite Hempty. }
    pose proof (expand_applicant_normalized _ _ Hlist) as Hone.
    split; [done|].
    intros df_applicants df_fi df_applicants_fi res Hexpand Hagg.
    destruct (aggregate_data_inv _ _ _ _ _ Hagg) as (? & ? & ? & ? & Hcount & _).
    destruct (get_column col_applicant df_applicants) as [col|] eqn:Hcol;
      [|done].
    apply get_column_Some in Hcol as [_ ->]. simpl in Hcount.
    eapply value_counts_string; [|exact Hcount].
    apply list_elem_of_fmap.
    exists (<[col_applicant := VStr []]> (normalize_row year row)).
    split; [by rewrite cell_insert|].
    eapply expand_data_applicant_row; [done..|]. by left.
  - intros s Hs Hblank.
    assert (normalize_row year row !! col_fi_list = Some (VList []))
      as Hlist.
    { rewrite normalize_row_fi_list.
      replace (cell col_FI row) with (VStr s)
        by (unfold cell; by rewrite Hs).
      by rewrite fi_list_cell_blank. }
    by rewrite (expand_fi_normalized _ _ Hlist).
Qed.
End empty_fields.

Lemma empty_fields_expansion_witness :
  ∃ row' df_applicants df_fi df_applicants_fi res,
    rows (preprocess_data iso_years blank_example).1 !! 0 = Some row'
    ∧ expand_data (preprocess_data iso_years blank_example).1
      = Some (df_applicants, df_fi, df_applicants_fi)
    ∧ aggregate_data (preprocess_data iso_years blank_example).1
        df_applicants df_fi df_applicants_fi = Some res
    ∧ expand_applicant row' = Some [<[col_applicant := VStr []]> row']
    ∧ expand_fi row' = Some []
    ∧ ∃ n, 0 < n ∧ (KStr [], n) ∈ applicant_counts res.
Proof.
  eexists _, _, _, _, _.
  split; [vm_compute; reflexivity|].
  split; [vm_compute; reflexivity|].
  split; [vm_compute; reflexivity|].
  destruct (empty_fields_expansion iso_years blank_example
              (preprocess_data iso_years blank_example).1 0
              (raw_row (py "2022-02-02") [marker_down] (py "  "))
              (normalize_row (VInt 2022)
                 (raw_row (py "2022-02-02") [marker_down] (py "  "))))
    as (Happlicant & Hfi);
    [vm_compute; reflexivity..|].
  destruct (Happlicant [marker_down]) as (Hone & Hcounted);
    [vm_compute; reflexivity..|].
  split_and!.
  - exact Hone.
  - apply (Hfi (py "  ")); vm_compute; reflexivity.
  - eapply Hcounted; vm_compute; reflexivity.
Defined.

(** * Further properties of the code *)

(** ** The two splits *)

Lemma split_comma_nonempty s : ∃ p ps, split_comma s = p :: ps.
Proof.
  induction s as [|c s (p & ps & IH)]; simpl; [by eauto|].
  destruct (c =? comma)%N; [by eauto|]. rewrite IH. simpl. eauto.
Qed.

Lemma split_fi_nonempty s : ∃ p ps, split_fi s = p :: ps.
Proof.
  induction s as [|c s (p & ps & IH)]; simpl; [by eauto|].
  destruct ((c =? comma)%N && not_before_digit s); [by eauto|].
  rewrite IH. simpl. eauto.
Qed.

Lemma join_comma_push_char c p ps :
  join_comma (push_char c (p :: ps)) = c :: join_comma (p :: ps).
Proof. simpl. by destruct ps. Qed.

(** [split(',')] loses nothing: joining the pieces with commas gives
    the text back, and there is one piece more than there are commas, so
    that the list of applicants is never empty. *)
Theorem split_comma_join (s : pystr) :
  join_comma (split_comma s) = s
  ∧ length (split_comma s) = S (length (filter (λ c, c = comma) s)).
Proof.
  induction s as [|c s [IHjoin IHlen]]; [done|]. simpl split_comma.
  destruct (split_comma_nonempty s) as (p & ps & Hs).
  rewrite filter_cons. destruct (N.eqb_spec c comma) as [->|Hc].
  - rewrite decide_True by done. split.
    + rewrite Hs in *. simpl in *. by rewrite IHjoin.
    + simpl. by rewrite IHlen.
  - rewrite decide_False by done. rewrite Hs in *. split.
    + rewrite join_comma_push_char. by rewrite IHjoin.
    + simpl in *. done.
Qed.

(** The split of the classification codes loses nothing either. *)
Theorem split_fi_join (s : pystr) : join_comma (split_fi s) = s.
Proof.
  induction s as [|c s IH]; [done|]. simpl split_fi.
  destruct (split_fi_nonempty s) as (p & ps & Hs). rewrite Hs in *.
  destruct ((c =? comma)%N && not_before_digit s) eqn:Hsplit.
  - apply andb_prop in Hsplit as [Hc%N.eqb_eq _]. subst c.
    simpl in *. by rewrite IH.
  - rewrite join_comma_push_char. by rewrite IH.
Qed.

Lemma split_fi_head d s :
  is_decimal d = true → ∃ p ps, split_fi (d :: s) = (d :: p) :: ps.
Proof.
  intros Hd. simpl.
  destruct (N.eqb_spec d comma) as [->|_]; [by vm_compute in Hd|].
  destruct (split_fi_nonempty s) as (p & ps & ->). simpl. eauto.
Qed.

(** The commas that stay inside a classification code are those
    followed by a digit: every other comma separates two codes. *)
Theorem split_fi_protected (s piece : pystr) :
  piece ∈ split_fi s → commas_protected piece.
Proof.
  revert piece. induction s as [|c s IH]; intros piece; simpl.
  - intros ->%list_elem_of_singleton k Hk. by rewrite lookup_nil in Hk.
  - destruct ((c =? comma)%N && not_before_digit s) eqn:Hsplit.
    + intros [->|Hin]%elem_of_cons; [|by apply IH].
      intros k Hk. by rewrite lookup_nil in Hk.
    + destruct (split_fi_nonempty s) as (p & ps & Hs). rewrite Hs in *.
      simpl. intros [->|Hin]%elem_of_cons.
      * intros [|k] Hk.
        -- injection Hk as ->. simpl in Hsplit.
           destruct s as [|d s']; [done|]. simpl in Hsplit.
           apply negb_false_iff in Hsplit.
           destruct (split_fi_head d s' Hsplit) as (p' & ps' & Hhead).
           rewrite Hhead in Hs. injection Hs as <- _. exists d. by split.
        -- apply (IH p); [by left|done].
      * apply IH. by right.
Qed.

Lemma split_fi_protected_witness :
  commas_protected (py "A01B 1,00")
  ∧ split_fi (py "A01B 1,00,B02C 3/00, C01") =
      [py "A01B 1,00"; py "B02C 3/00"; py " C01"].
Proof.
  split; [|reflexivity].
  apply (split_fi_protected (py "A01B 1,00,B02C 3/00, C01")).
  apply (bool_decide_unpack _). by vm_compute.
Defined.

(** ** Trimming *)

Lemma lstrip_idemp s : lstrip (lstrip s) = lstrip s.
Proof.
  induction s as [|c s IH]; simpl; [done|].
  destruct (is_space c) eqn:Hc; [done|]. simpl. by rewrite Hc.
Qed.

Lemma lstrip_app_nonspace a c b :
  is_space c = false → lstrip (a ++ c :: b) = lstrip a ++ c :: b.
Proof.
  intros Hc. induction a as [|x a IH]; simpl; [by rewrite Hc|].
  by destruct (is_space x).
Qed.

Lemma rstrip_idemp s : rstrip (rstrip s) = rstrip s.
Proof. unfold rstrip. by rewrite reverse_involutive, lstrip_idemp. Qed.

Lemma lstrip_rstrip_lstrip s : lstrip (rstrip (lstrip s)) = rstrip (lstrip s).
Proof.
  induction s as [|c s IH]; simpl; [done|].
  destruct (is_space c) eqn:Hc; [done|].
  unfold rstrip. rewrite reverse_cons, lstrip_app_nonspace by done.
  rewrite reverse_app. simpl. by rewrite Hc.
Qed.

(** A trimmed text stays as it is when it is trimmed again. *)
Lemma strip_idemp s : strip (strip s) = strip s.
Proof.
  unfold strip at 1. unfold strip.
  by rewrite lstrip_rstrip_lstrip, rstrip_idemp.
Qed.

(** ** Where the expanded rows come from *)

Lemma mapM_mjoin_elem {A B} (f : A → option (list B)) (l : list A)
    (outs : list (list B)) (y : B) :
  mapM f l = Some outs → y ∈ mjoin outs →
  ∃ x out, x ∈ l ∧ f x = Some out ∧ y ∈ out.
Proof.
  intros Hl%mapM_Some_1 (out & Hy & Hout)%list_elem_of_join.
  apply list_elem_of_lookup in Hout as [i Hi].
  destruct (Forall2_lookup_r _ _ _ _ _ Hl Hi) as (x & Hx & Hfx).
  exists x, out. split_and!; [by eapply list_elem_of_lookup_2|done..].
Qed.

Lemma expand_data_inv df df_applicants df_fi df_applicants_fi :
  expand_data df = Some (df_applicants, df_fi, df_applicants_fi) →
  ∃ a f af,
    mapM expand_applicant (rows df) = Some a
    ∧ mapM expand_fi (rows df) = Some f
    ∧ mapM expand_applicant_fi (rows df) = Some af
    ∧ df_applicants = frame_of_rows (mjoin a)
    ∧ df_fi = frame_of_rows (mjoin f)
    ∧ df_applicants_fi = frame_of_rows (mjoin af).
Proof.
  unfold expand_data. intros H.
  destruct (mapM expand_applicant (rows df)) as [a|]; [|done].
  destruct (mapM expand_fi (rows df)) as [f|]; [|done].
  destruct (mapM expand_applicant_fi (rows df)) as [af|]; [|done].
  injection H as <- <- <-. by exists a, f, af.
Qed.

Lemma expand_applicant_inv row out new_row :
  expand_applicant row = Some out → new_row ∈ out →
  ∃ items applicant,
    item col_applicants_list row ≫= iter_value = Some items
    ∧ applicant ∈ items
    ∧ new_row = <[col_applicant := VStr (strip applicant)]> row.
Proof.
  unfold expand_applicant. intros H Hnew.
  destruct (item col_applicants_list row) as [v|]; [|done]. simpl in *.
  destruct (iter_value v) as [items|]; [|done]. simpl in *.
  injection H as <-. apply list_elem_of_fmap in Hnew as (a & -> & Ha).
  by exists items, a.
Qed.

Lemma expand_fi_inv row out new_row :
  expand_fi row = Some out → new_row ∈ out →
  ∃ items fi,
    item col_fi_list row ≫= iter_value = Some items
    ∧ fi ∈ items
    ∧ new_row = <[col_FI := VStr (strip fi)]> row.
Proof.
  unfold expand_fi. intros H Hnew.
  destruct (item col_fi_list row) as [v|]; [|done]. simpl in *.
  destruct (iter_value v) as [items|]; [|done]. simpl in *.
  injection H as <-. apply list_elem_of_fmap in Hnew as (a & -> & Ha).
  by exists items, a.
Qed.

Lemma expand_applicant_fi_inv row out new_row :
  expand_applicant_fi row = Some out → new_row ∈ out →
  ∃ applicants applicant fis fi,
    item col_applicants_list row ≫= iter_value = Some applicants
    ∧ item col_fi_list row ≫= iter_value = Some fis
    ∧ applicant ∈ applicants ∧ fi ∈ fis
    ∧ new_row = <[col_FI := VStr (strip fi)]>
                  (<[col_applicant := VStr (strip applicant)]> row).
Proof.
  unfold expand_applicant_fi. intros H Hnew.
  destruct (item col_applicants_list row) as [va|]; [|done]. simpl in *.
  destruct (iter_value va) as [applicants|]; [|done]. simpl in *.
  destruct (mapM _ applicants) as [outs|] eqn:Houts; [|done].
  injection H as <-.
  destruct (mapM_mjoin_elem _ _ _ _ Houts Hnew) as (a & o & Ha & Ho & Hin).
  destruct (item col_fi_list row) as [vf|]; [|done]. simpl in *.
  destruct (iter_value vf) as [fis|]; [|done]. simpl in *.
  injection Ho as <-. apply list_elem_of_fmap in Hin as (fi & -> & Hfi).
  by exists applicants, a, fis, fi.
Qed.

(** Every row of the three expanded tables is a record of the input with
    the expanded columns replaced by trimmed elements of its lists; all
    its other columns are those of the record. *)
Theorem expand_data_provenance df df_applicants df_fi df_applicants_fi :
  expand_data df = Some (df_applicants, df_fi, df_applicants_fi) →
  (∀ new_row, new_row ∈ rows df_applicants →
     ∃ row items applicant,
       row ∈ rows df
       ∧ item col_applicants_list row ≫= iter_value = Some items
       ∧ applicant ∈ items
       ∧ new_row !! col_applicant = Some (VStr (strip applicant))
       ∧ ∀ c, c ≠ col_applicant → new_row !! c = row !! c)
  ∧ (∀ new_row, new_row ∈ rows df_fi →
       ∃ row items fi,
         row ∈ rows df
         ∧ item col_fi_list row ≫= iter_value = Some items
         ∧ fi ∈ items
         ∧ new_row !! col_FI = Some (VStr (strip fi))
         ∧ ∀ c, c ≠ col_FI → new_row !! c = row !! c)
  ∧ (∀ new_row, new_row ∈ rows df_applicants_fi →
       ∃ row applicants applicant fis fi,
         row ∈ rows df
         ∧ item col_applicants_list row ≫= iter_value = Some applicants
         ∧ item col_fi_list row ≫= iter_value = Some fis
         ∧ applicant ∈ applicants ∧ fi ∈ fis
         ∧ new_row !! col_applicant = Some (VStr (strip applicant))
         ∧ new_row !! col_FI = Some (VStr (strip fi))
         ∧ ∀ c, c ≠ col_applicant → c ≠ col_FI → new_row !! c = row !! c).
Proof.
  intros (a & f & af & Ha & Hf & Haf & -> & -> & ->)%expand_data_inv.
  split_and!; intros new_row Hnew; simpl in Hnew.
  - destruct (mapM_mjoin_elem _ _ _ _ Ha Hnew) as (row & out & ? & Hout & Hin).
    destruct (expand_applicant_inv _ _ _ Hout Hin) as (items & x & ? & ? & ->).
    exists row, items, x. split_and!; try done.
    + apply lookup_insert_eq.
    + intros c Hc. by rewrite lookup_insert_ne.
  - destruct (mapM_mjoin_elem _ _ _ _ Hf Hnew) as (row & out & ? & Hout & Hin).
    destruct (expand_fi_inv _ _ _ Hout Hin) as (items & x & ? & ? & ->).
    exists row, items, x. split_and!; try done.
    + apply lookup_insert_eq.
    + intros c Hc. by rewrite lookup_insert_ne.
  - destruct (mapM_mjoin_elem _ _ _ _ Haf Hnew) as (row & out & ? & Hout & Hin).
    destruct (expand_applicant_fi_inv _ _ _ Hout Hin)
      as (la & x & lf & y & ? & ? & ? & ? & ->).
    exists row, la, x, lf, y. split_and!; try done.
    + rewrite lookup_insert_ne by cols_differ. apply lookup_insert_eq.
    + apply lookup_insert_eq.
    + intros c Hc1 Hc2. by rewrite !lookup_insert_ne.
Qed.

Lemma expand_data_provenance_witness :
  ∃ df_applicants df_fi df_applicants_fi,
    expand_data normalized_example
      = Some (df_applicants, df_fi, df_applicants_fi)
    ∧ ∀ new_row, new_row ∈ rows df_applicants →
        ∃ row items applicant,
          row ∈ rows normalized_example
          ∧ item col_applicants_list row ≫= iter_value = Some items
          ∧ applicant ∈ items
          ∧ new_row !! col_applicant = Some (VStr (strip applicant))
          ∧ ∀ c, c ≠ col_applicant → new_row !! c = row !! c.
Proof.
  eexists _, _, _. split; [vm_compute; reflexivity|].
  eapply (expand_data_provenance normalized_example).
  vm_compute. reflexivity.
Defined.

(** ** The entities of the expanded tables *)

Lemma fi_list_cell_nonblank v x :
  fi_list_cell v = Some x → ∃ fis, x = VList fis ∧ Forall nonblank fis.
Proof.
  unfold fi_list_cell, keep_nonblank. intros H.
  destruct (iter_value _) as [items|]; [|done]. injection H as <-.
  eexists. split; [done|].
  apply Forall_forall. by intros item [? _]%list_elem_of_filter.
Qed.

Section pipeline_facts.
Variable to_datetime_year : list value → option (list (option Z)).

Lemma preprocess_data_elem df df' row' :
  preprocess_data to_datetime_year df = (df', Some ()) →
  row' ∈ rows df' →
  ∃ row year fis,
    row ∈ rows df ∧ row' = normalize_row year row
    ∧ fi_list_cell (cell col_FI row) = Some (VList fis)
    ∧ Forall nonblank fis.
Proof.
  intros H [i Hi]%list_elem_of_lookup.
  destruct (preprocess_data_rows _ _ _ H) as (years & _ & _ & Hrows & Hfi).
  rewrite Hrows, list_lookup_imap in Hi.
  destruct (rows df !! i) as [row|] eqn:Hrow; [|done].
  injection Hi as <-.
  apply (proj1 (Forall_lookup _ _) Hfi i row) in Hrow as Hsome.
  destruct Hsome as [x Hx].
  destruct (fi_list_cell_nonblank _ _ Hx) as (fis & -> & Hfis).
  exists row, (default VNaN ((year_cell <$> years) !! i)), fis.
  split_and!; try done. by eapply list_elem_of_lookup_2.
Qed.

(** In the tables expanded from what [preprocess_data] returns, every
    applicant and every code is a trimmed text, and no code is the empty
    text (an applicant can be: see [empty_fields_expansion]). *)
Theorem expanded_entities_trimmed df df' df_applicants df_fi df_applicants_fi :
  preprocess_data to_datetime_year df = (df', Some ()) →
  expand_data df' = Some (df_applicants, df_fi, df_applicants_fi) →
  (∀ row, row ∈ rows df_applicants →
     ∃ a, row !! col_applicant = Some (VStr a) ∧ strip a = a)
  ∧ (∀ row, row ∈ rows df_fi →
       ∃ f, row !! col_FI = Some (VStr f) ∧ strip f = f ∧ f ≠ [])
  ∧ (∀ row, row ∈ rows df_applicants_fi →
       ∃ a f,
         row !! col_applicant = Some (VStr a) ∧ row !! col_FI = Some (VStr f)
         ∧ strip a = a ∧ strip f = f ∧ f ≠ []).
Proof.
  intros Hpre (a & f & af & Ha & Hf & Haf & -> & -> & ->)%expand_data_inv.
  assert (∀ row' items fi,
            row' ∈ rows df' →
            item col_fi_list row' ≫= iter_value = Some items →
            fi ∈ items → strip fi ≠ []) as Hcode.
  { intros row' items fi Hrow' Hitems Hfi.
    destruct (preprocess_data_elem _ _ _ Hpre Hrow')
      as (row & year & fis & _ & -> & Hcell & Hfis).
    unfold item in Hitems.
    rewrite normalize_row_fi_list, Hcell in Hitems.
    injection Hitems as <-.
    by apply (proj1 (Forall_forall _ _) Hfis). }
  split_and!; intros new_row Hnew; simpl in Hnew.
  - destruct (mapM_mjoin_elem _ _ _ _ Ha Hnew) as (row & out & ? & Hout & Hin).
    destruct (expand_applicant_inv _ _ _ Hout Hin) as (items & x & ? & ? & ->).
    exists (strip x). split; [apply lookup_insert_eq|apply strip_idemp].
  - destruct (mapM_mjoin_elem _ _ _ _ Hf Hnew) as (row & out & ? & Hout & Hin).
    destruct (expand_fi_inv _ _ _ Hout Hin) as (items & x & ? & ? & ->).
    exists (strip x).
    split_and!; [apply lookup_insert_eq|apply strip_idemp|by eapply Hcode].
  - destruct (mapM_mjoin_elem _ _ _ _ Haf Hnew) as (row & out & ? & Hout & Hin).
    destruct (expand_applicant_fi_inv _ _ _ Hout Hin)
      as (la & x & lf & y & ? & ? & ? & ? & ->).
    exists (strip x), (strip y). split_and!.
    + rewrite lookup_insert_ne by cols_differ. apply lookup_insert_eq.
    + apply lookup_insert_eq.
    + apply strip_idemp.
    + apply strip_idemp.
    + by eapply Hcode.
Qed.

Lemma get_column_present c df :
  c ∈ columns df → get_column c df = Some (cell c <$> rows df).
Proof. intros Hc. unfold get_column. by rewrite decide_True. Qed.

Lemma set_column_other c c' vals df :
  c ≠ c' → cell c <$> rows (set_column c' vals df) = cell c <$> rows df.
Proof.
  intros Hne. simpl. apply list_eq. intros i.
  rewrite !list_lookup_fmap, list_lookup_imap.
  destruct (rows df !! i) as [row|]; [|done]. simpl.
  by rewrite cell_insert_ne.
Qed.

Lemma str_accessor_text series i v :
  series !! i = Some v → holds_text v → str_accessor series = Some ().
Proof.
  intros Hi Hv. unfold str_accessor. rewrite decide_True; [done|].
  right. apply Exists_exists. exists v.
  split; [by eapply list_elem_of_lookup_2|done].
Qed.

(** [preprocess_data] returns the table when the three columns are
    there, the dates convert, the applicant column holds a text (or the
    table has no row) and every cell of the [FI] column is a text or
    missing. *)
Lemma preprocess_data_returns df years :
  col_date ∈ columns df → col_applicant ∈ columns df → col_FI ∈ columns df →
  to_datetime_year (cell col_date <$> rows df) = Some years →
  str_accessor (cell col_applicant <$> rows df) = Some () →
  Forall (λ row, cell col_FI row = VNaN ∨ ∃ s, cell col_FI row = VStr s)
         (rows df) →
  ∃ df', preprocess_data to_datetime_year df = (df', Some ()).
Proof.
  intros Hdate Happ Hfi Hyears Hstr Hcodes.
  unfold preprocess_data, mbind, update_bind, read_col, assign_col, or_raise.
  rewrite (get_column_present _ _ Hdate), Hyears.
  set (df1 := set_column col_year (year_cell <$> years) df).
  rewrite (get_column_present col_applicant df1) by (simpl; set_solver).
  assert (cell col_applicant <$> rows df1 = cell col_applicant <$> rows df)
    as Happ1 by (apply set_column_other; cols_differ).
  rewrite Happ1, Hstr.
  set (df2 := set_column col_applicant _ df1).
  rewrite (get_column_present col_applicant df2) by (simpl; set_solver).
  set (df3 := set_column col_applicants_list _ df2).
  rewrite (get_column_present col_FI df3) by (simpl; set_solver).
  assert (cell col_FI <$> rows df3 = cell col_FI <$> rows df) as Hfi3.
  { unfold df3. rewrite set_column_other by cols_differ.
    unfold df2. rewrite set_column_other by cols_differ.
    unfold df1. apply set_column_other. cols_differ. }
  rewrite Hfi3.
  assert (Forall (λ v, ∃ s, v = VStr s)
            (fillna_empty <$> (cell col_FI <$> rows df))) as Hfilled.
  { rewrite <- list_fmap_compose. apply Forall_fmap.
    eapply Forall_impl; [exact Hcodes|]. intros row [Hnan|[s Hs]]; simpl.
    - rewrite Hnan. by exists [].
    - rewrite Hs. by exists s. }
  assert (str_accessor (fillna_empty <$> (cell col_FI <$> rows df)) = Some ())
    as ->.
  { destruct (fillna_empty <$> (cell col_FI <$> rows df)) as [|v l] eqn:Hl.
    - done.
    - apply (str_accessor_text _ 0 v); [done|].
      apply Forall_cons in Hfilled as [[s ->] _]. done. }
  set (filled := fillna_empty <$> (cell col_FI <$> rows df)) in *.
  set (df4 := set_column col_fi_list (str_split_fi <$> filled) df3).
  rewrite (get_column_present col_fi_list df4) by (simpl; set_solver).
  assert (is_Some (mapM keep_nonblank (cell col_fi_list <$> rows df4)))
    as [kept ->]; [|by eexists].
  apply mapM_is_Some_2, Forall_forall. intros v [i Hi]%list_elem_of_lookup.
  rewrite list_lookup_fmap in Hi. unfold df4 in Hi.
  rewrite set_column_rows_imap, list_lookup_imap in Hi.
  destruct (rows df3 !! i) as [row3|] eqn:Hrow3; [|done].
  csimpl in Hi. rewrite cell_insert in Hi. injection Hi as <-.
  assert (is_Some (filled !! i)) as [x Hx].
  { apply lookup_lt_is_Some. unfold filled.
    rewrite !length_fmap, <- (length_fmap (cell col_FI)), <- Hfi3, length_fmap.
    by eapply lookup_lt_Some. }
  rewrite list_lookup_fmap, Hx. simpl.
  apply (proj1 (Forall_lookup _ _) Hfilled i x) in Hx as [s ->]. by eexists.
Qed.

(** One record whose applicant cell is not a text (a missing applicant),
    in a batch where another record names an applicant, does not stop
    [preprocess_data]: the dates converting and the cells of the [FI]
    column being texts or missing, the table is returned; [expand_data]
    then fails for the whole batch. *)
Theorem missing_applicant_fails_expansion df years i j row named s :
  col_date ∈ columns df → col_applicant ∈ columns df → col_FI ∈ columns df →
  to_datetime_year (cell col_date <$> rows df) = Some years →
  Forall (λ row, cell col_FI row = VNaN ∨ ∃ s, cell col_FI row = VStr s)
         (rows df) →
  rows df !! j = Some named → cell col_applicant named = VStr s →
  rows df !! i = Some row → (∀ s, cell col_applicant row ≠ VStr s) →
  ∃ df', preprocess_data to_datetime_year df = (df', Some ())
         ∧ expand_data df' = None.
Proof.
  intros Hdate Happ Hfi Hyears Hcodes Hnamed Hs Hrow Hmissing.
  destruct (preprocess_data_returns df years) as [df' Hpre]; try done.
  { apply (str_accessor_text _ j (VStr s)); [|done].
    by rewrite list_lookup_fmap, Hnamed, <- Hs. }
  exists df'. split; [done|].
  destruct (preprocess_data_rows _ _ _ Hpre) as (years' & _ & _ & Hrows & _).
  set (year := default VNaN ((year_cell <$> years') !! i)).
  assert (rows df' !! i = Some (normalize_row year row)) as Hrow'.
  { by rewrite Hrows, list_lookup_imap, Hrow. }
  assert (expand_applicant (normalize_row year row) = None) as Hnone.
  { unfold expand_applicant, item.
    rewrite normalize_row_applicants_list. simpl.
    destruct (cell col_applicant row) as [| |s'|] eqn:Hcell; try done.
    by destruct (Hmissing s'). }
  unfold expand_data.
  rewrite (mapM_None_2 expand_applicant (rows df')); [done|].
  apply Exists_exists. exists (normalize_row year row).
  split; [|done]. by eapply list_elem_of_lookup_2.
Qed.

(** When no record of the batch has a classification code, the table of
    the codes has no row and no column, and [aggregate_data] fails. *)
Theorem no_codes_fails_aggregation df df' df_applicants df_fi df_applicants_fi :
  preprocess_data to_datetime_year df = (df', Some ()) →
  expand_data df' = Some (df_applicants, df_fi, df_applicants_fi) →
  Forall (λ row, cell col_FI row = VNaN
                 ∨ ∃ s, cell col_FI row = VStr s ∧ blank s) (rows df) →
  rows df_fi = []
  ∧ aggregate_data df' df_applicants df_fi df_applicants_fi = None.
Proof.
  intros Hpre (a & f & af & _ & Hf & _ & -> & -> & ->)%expand_data_inv Hblank.
  assert (mjoin f = []) as Hempty.
  { apply join_nil_2. apply mapM_Some_1 in Hf.
    apply Forall_forall. intros out [j Hj]%list_elem_of_lookup.
    destruct (Forall2_lookup_r _ _ _ _ _ Hf Hj) as (row' & Hrow' & Hout).
    apply list_elem_of_lookup_2 in Hrow'.
    destruct (preprocess_data_elem _ _ _ Hpre Hrow')
      as (row & year & fis & Hrow & -> & Hcell & _).
    assert (fis = []) as ->.
    { apply (proj1 (Forall_forall _ _) Hblank) in Hrow as [Hnan|(s & Hs & Hb)].
      - rewrite Hnan in Hcell. vm_compute in Hcell. congruence.
      - rewrite Hs, (fi_list_cell_blank _ Hb) in Hcell. congruence. }
    erewrite expand_fi_normalized in Hout;
      [|by rewrite normalize_row_fi_list, Hcell].
    by injection Hout as <-. }
  rewrite Hempty. split; [done|].
  unfold aggregate_data.
  destruct (get_column col_applicant _ ≫= value_counts); done.
Qed.
End pipeline_facts.

Lemma expanded_entities_trimmed_witness :
  (∀ row, row ∈ rows applicants_example →
     ∃ a, row !! col_applicant = Some (VStr a) ∧ strip a = a)
  ∧ (∀ row, row ∈ rows fi_example →
       ∃ f, row !! col_FI = Some (VStr f) ∧ strip f = f ∧ f ≠ [])
  ∧ (∀ row, row ∈ rows applicants_fi_example →
       ∃ a f,
         row !! col_applicant = Some (VStr a) ∧ row !! col_FI = Some (VStr f)
         ∧ strip a = a ∧ strip f = f ∧ f ≠ []).
Proof.
  apply (expanded_entities_trimmed iso_years raw_example processed_example).
  - vm_compute. reflexivity.
  - vm_compute. reflexivity.
Defined.

Lemma missing_applicant_fails_expansion_witness :
  ∃ df', preprocess_data iso_years incomplete_example = (df', Some ())
         ∧ expand_data df' = None.
Proof.
  apply (missing_applicant_fails_expansion iso_years incomplete_example
           [Some 2020%Z; Some 2021%Z] 1 0
           {[ col_date := VStr (py "2021-05-01"); col_applicant := VNaN;
              col_FI := VStr (py "A01B") ]}
           (raw_row (py "2020-01-01") (py "X") (py "B02C")) (py "X")).
  - apply (bool_decide_unpack _). by vm_compute.
  - apply (bool_decide_unpack _). by vm_compute.
  - apply (bool_decide_unpack _). by vm_compute.
  - reflexivity.
  - constructor; [|constructor; [|constructor]].
    + right. by eexists.
    + right. by eexists.
  - reflexivity.
  - reflexivity.
  - reflexivity.
  - intros s Hs. vm_compute in Hs. discriminate Hs.
Defined.

Lemma no_codes_fails_aggregation_witness :
  ∃ df_applicants df_fi df_applicants_fi,
    expand_data (preprocess_data iso_years codeless_example).1
      = Some (df_applicants, df_fi, df_applicants_fi)
    ∧ length (rows df_applicants) = 2
    ∧ rows df_fi = []
    ∧ aggregate_data (preprocess_data iso_years codeless_example).1
        df_applicants df_fi df_applicants_fi = None.
Proof.
  eexists _, _, _. split; [vm_compute; reflexivity|].
  split; [reflexivity|].
  apply (no_codes_fails_aggregation iso_years codeless_example).
  - vm_compute. reflexivity.
  - vm_compute. reflexivity.
  - constructor; [|constructor; [|constructor]].
    + right. exists (py " "). split; reflexivity.
    + left. reflexivity.
Defined.

(** ** Frequency tables *)

Lemma occurrences_cons {A} `{EqDecision A} (y x : A) (l : list A) :
  occurrences y (x :: l) = (if decide (x = y) then 1 else 0) + occurrences y l.
Proof. unfold occurrences. rewrite filter_cons. by case_decide. Qed.

Lemma sum_indicator_absent {A} `{EqDecision A} (x : A) (D : list A) :
  x ∉ D → sum_list_with (λ y, if decide (x = y) then 1 else 0) D = 0.
Proof.
  induction D as [|z D IH]; intros Hx; simpl; [done|].
  apply not_elem_of_cons in Hx as [Hxz Hx].
  rewrite decide_False by done. by apply IH.
Qed.

Lemma sum_indicator {A} `{EqDecision A} (x : A) (D : list A) :
  NoDup D → x ∈ D →
  sum_list_with (λ y, if decide (x = y) then 1 else 0) D = 1.
Proof.
  induction 1 as [|y D Hy _ IH]; intros Hx; [by apply elem_of_nil in Hx|].
  simpl. case_decide as Hxy.
  - subst y. by rewrite sum_indicator_absent.
  - apply elem_of_cons in Hx as [?|Hx]; [done|]. by rewrite IH.
Qed.

Lemma sum_occurrences {A} `{EqDecision A} (D l : list A) :
  NoDup D → (∀ x, x ∈ l → x ∈ D) →
  sum_list_with (λ y, occurrences y l) D = length l.
Proof.
  intros HD. induction l as [|x l IH]; intros Hl.
  - clear. by induction D as [|y D IHD].
  - transitivity (sum_list_with (λ y, if decide (x = y) then 1 else 0) D
                  + sum_list_with (λ y, occurrences y l) D).
    + clear. induction D as [|y D IHD]; simpl; [done|].
      rewrite occurrences_cons, IHD. lia.
    + rewrite sum_indicator, IH; [done| |done|].
      * intros y Hy. apply Hl. by right.
      * apply Hl. by left.
Qed.

Lemma tally_total {A} `{EqDecision A} (l : list A) :
  sum_list (tally l).*2 = length l.
Proof.
  unfold tally. rewrite <- list_fmap_compose.
  transitivity (sum_list_with (λ y, occurrences y l) (distinct l)).
  - generalize (distinct l). intros D.
    induction D as [|y D IH]; csimpl; [done|]. by rewrite IH.
  - apply sum_occurrences; [apply NoDup_distinct|].
    intros x. by rewrite elem_of_distinct.
Qed.

(** The cells of a column that are not missing. *)
Lemma labels_present col labels :
  mapM as_label col = Some labels →
  length (omap id labels) = length (filter (λ v, v ≠ VNaN) col).
Proof.
  intros H%mapM_Some_1. induction H as [|v o col labels Hv _ IH]; [done|].
  rewrite filter_cons.
  destruct v; simpl in Hv; try done; injection Hv as <-;
    case_decide; try done; csimpl; by rewrite IH.
Qed.

(** The counts of a frequency table are positive, its entities are
    distinct, and the counts add up to the number of cells counted. *)
Lemma value_counts_facts col table :
  value_counts col = Some table →
  NoDup table.*1
  ∧ Forall (λ p, 0 < p.2) table
  ∧ sum_list table.*2 = length (filter (λ v, v ≠ VNaN) col).
Proof.
  intros H. pose proof (value_counts_NoDup _ _ H) as Hnd.
  apply value_counts_inv in H as (labels & Hlabels & Hperm).
  split_and!; [done|..].
  - rewrite Hperm. apply Forall_forall. intros [k n] [Hk ->]%elem_of_tally.
    simpl. by apply occurrences_pos.
  - rewrite Hperm, tally_total. by apply labels_present.
Qed.

(** In what [aggregate_data] returns, every frequency table has distinct
    entities and positive counts, and its counts add up to the number of
    rows counted: the exploded rows for the applicants and the codes, the
    records with a date for the years.  So the shares drawn from the
    tables with the [others] row are shares of these rows. *)
Theorem aggregate_data_totals df df_applicants df_fi df_applicants_fi res :
  aggregate_data df df_applicants df_fi df_applicants_fi = Some res →
  (NoDup (applicant_counts res).*1
   ∧ Forall (λ p, 0 < p.2) (applicant_counts res)
   ∧ sum_list (applicant_counts res).*2
     = length (present col_applicant df_applicants))
  ∧ (NoDup (fi_counts res).*1
     ∧ Forall (λ p, 0 < p.2) (fi_counts res)
     ∧ sum_list (fi_counts res).*2 = length (present col_FI df_fi))
  ∧ (NoDup (year_counts res).*1
     ∧ Forall (λ p, 0 < p.2) (year_counts res)
     ∧ sum_list (year_counts res).*2 = length (present col_year df)).
Proof.
  intros H.
  destruct (aggregate_data_inv _ _ _ _ _ H)
    as (counted & ? & ? & ? & Ha & Hf & Hy & Hsort & _).
  destruct (get_column col_applicant df_applicants) as [ca|] eqn:Hca; [|done].
  destruct (get_column col_FI df_fi) as [cf|] eqn:Hcf; [|done].
  destruct (get_column col_year df) as [cy|] eqn:Hcy; [|done].
  apply get_column_Some in Hca as [_ ->], Hcf as [_ ->], Hcy as [_ ->].
  simpl in Ha, Hf, Hy.
  apply sort_values_inv in Hsort.
  destruct (value_counts_facts _ _ Ha) as (? & ? & ?).
  destruct (value_counts_facts _ _ Hf) as (? & ? & ?).
  destruct (value_counts_facts _ _ Hy) as (? & ? & ?).
  split_and!; try done; rewrite Hsort, merge_sort_Permutation; done.
Qed.

Lemma aggregate_data_totals_witness :
  ∃ res,
    aggregate_example = Some res
    ∧ sum_list (applicant_counts res).*2 = 15
    ∧ length (rows applicants_example) = 15
    ∧ sum_list (applicant_counts res).*2
      = length (present col_applicant applicants_example).
Proof.
  eexists. split; [vm_compute; reflexivity|].
  split; [reflexivity|]. split; [reflexivity|].
  apply (aggregate_data_totals processed_example applicants_example
           fi_example applicants_fi_example).
  vm_compute. reflexivity.
Defined.

(** ** The ranking *)

Lemma insert_sorted_strongly {A} (R : relation A) `{∀ x y, Decision (R x y)}
    `{!Total R, !Transitive R} (x : A) (l : list A) :
  StronglySorted R l → StronglySorted R (insert_sorted R x l).
Proof.
  induction 1 as [|y l Hl IH Hy]; simpl; [by repeat constructor|].
  case_decide as Hxy.
  - constructor; [by constructor|]. constructor; [done|].
    eapply Forall_impl; [exact Hy|]. intros z Hz. by transitivity y.
  - constructor; [done|]. rewrite insert_sorted_perm. constructor; [|done].
    by destruct (total R x y).
Qed.

Lemma stable_sort_strongly {A} (R : relation A) `{∀ x y, Decision (R x y)}
    `{!Total R, !Transitive R} (l : list A) :
  StronglySorted R (stable_sort R l).
Proof.
  induction l as [|x l IH]; simpl; [constructor|].
  by apply insert_sorted_strongly.
Qed.

#[global] Instance count_ge_total {A} : Total (@count_ge A).
Proof. intros a b. unfold count_ge. lia. Qed.

#[global] Instance count_ge_trans {A} : Transitive (@count_ge A).
Proof. intros a b c. unfold count_ge. lia. Qed.

Lemma value_counts_sorted col table :
  value_counts col = Some table → StronglySorted count_ge table.
Proof.
  unfold value_counts. destruct (mapM as_label col); [|done].
  intros [= <-]. apply stable_sort_strongly; apply _.
Qed.

(** The top tables hold the most frequent entities: at most ten, all
    different, and none of the entities left out has a larger count than
    one that is in. *)
Theorem top_tables_rank df df_applicants df_fi df_applicants_fi res :
  aggregate_data df df_applicants df_fi df_applicants_fi = Some res →
  (length (top10_applicants res) ≤ 10
   ∧ NoDup (top10_applicants res)
   ∧ ∀ inside outside,
       inside ∈ top_applicants res →
       outside ∈ applicant_counts res → outside.1 ∉ top10_applicants res →
       outside.2 ≤ inside.2)
  ∧ (length (top10_fi res) ≤ 10
     ∧ NoDup (top10_fi res)
     ∧ ∀ inside outside,
         inside ∈ top_fi res →
         outside ∈ fi_counts res → outside.1 ∉ top10_fi res →
         outside.2 ≤ inside.2).
Proof.
  intros H.
  destruct (aggregate_data_inv _ _ _ _ _ H)
    as (? & ? & ? & ? & Ha & Hf & _ & _ & _ & _ & _
        & Hta & Htf & _ & _ & H10a & H10f & _).
  destruct (get_column col_applicant df_applicants) as [ca|]; [|done].
  destruct (get_column col_FI df_fi) as [cf|]; [|done].
  simpl in Ha, Hf. rewrite H10a, H10f, Hta, Htf.
  assert (∀ (table : list (key * nat)),
            NoDup table.*1 → StronglySorted count_ge table →
            length (take 10 table).*1 ≤ 10
            ∧ NoDup (take 10 table).*1
            ∧ ∀ inside outside,
                inside ∈ take 10 table → outside ∈ table →
                outside.1 ∉ (take 10 table).*1 → outside.2 ≤ inside.2)
    as Hrank.
  { intros table Hnd Hsorted. split_and!.
    - rewrite length_fmap, length_take. lia.
    - rewrite <- (take_drop 10 table), fmap_app in Hnd.
      by apply NoDup_app in Hnd as (? & _).
    - intros inside outside Hin Hout Hnot.
      rewrite <- (take_drop 10 table) in Hout, Hsorted.
      apply elem_of_app in Hout as [Hout|Hout].
      + destruct Hnot. by apply list_elem_of_fmap_2.
      + by apply (StronglySorted_app_1_elem_of count_ge _ _ _ _ Hsorted). }
  split; apply Hrank;
    eauto using value_counts_NoDup, value_counts_sorted.
Qed.

Lemma top_tables_rank_witness :
  ∃ res,
    aggregate_example = Some res
    ∧ length (top10_applicants res) = 10
    ∧ (KStr (py "k"), 1) ∈ applicant_counts res
    ∧ (KStr (py "k") ∉ top10_applicants res)
    ∧ NoDup (top10_applicants res)
    ∧ ∀ inside outside,
        inside ∈ top_applicants res →
        outside ∈ applicant_counts res → outside.1 ∉ top10_applicants res →
        outside.2 ≤ inside.2.
Proof.
  eexists. split; [vm_compute; reflexivity|].
  split; [reflexivity|].
  split; [apply (bool_decide_unpack _); by vm_compute|].
  split; [apply (bool_decide_unpack _); by vm_compute|].
  eapply (top_tables_rank processed_example applicants_example
            fi_example applicants_fi_example).
  vm_compute. reflexivity.
Defined.

(** ** The matrix as a function of the cross table *)

Section heatmap_more.
Context {T : Type} (row_col col_col : T → key) (value_col : T → Z).

(** The pivot table read at a pair of keys, with the fill value where it
    has no such row or column, is the cell of the cross table. *)
Lemma pivot_read (data : list T) r c :
  let pivot := pivot_table data value_col row_col col_col in
  match position r (m_index pivot), position c (m_columns pivot) with
  | Some i, Some j => default float_zero (m_values pivot !! i ≫= (.!! j))
  | _, _ => float_zero
  end = cell_at data value_col row_col col_col r c.
Proof.
  intros pivot.
  destruct (position r (m_index pivot)) as [i|] eqn:Hr.
  - destruct (position c (m_columns pivot)) as [j|] eqn:Hc.
    + apply position_Some in Hr, Hc. subst pivot.
      by rewrite (pivot_table_cell _ _ _ _ _ _ _ _ Hr Hc).
    + apply position_None in Hc.
      unfold cell_at. by rewrite (group_at_absent_col _ _ _ value_col r c Hc).
  - apply position_None in Hr.
    unfold cell_at. by rewrite (group_at_absent_row _ _ _ value_col r c Hr).
Qed.

Lemma create_heatmap_data_values (data : list T) row_items col_items :
  m_values (create_heatmap_data data row_col col_col value_col
              row_items col_items)
    = for_each row_items (λ r, for_each col_items (λ c,
        cell_at data value_col row_col col_col r c)).
Proof.
  unfold create_heatmap_data, reindex, for_each. simpl.
  apply list_fmap_ext. intros i r _.
  apply list_fmap_ext. intros j c _.
  apply pivot_read.
Qed.

Lemma matrix_eq (data data' : list T) row_items col_items :
  (∀ r c, r ∈ row_items → c ∈ col_items →
          cell_at data value_col row_col col_col r c
            = cell_at data' value_col row_col col_col r c) →
  create_heatmap_data data row_col col_col value_col row_items col_items
    = create_heatmap_data data' row_col col_col value_col row_items col_items.
Proof.
  intros Hcells. unfold create_heatmap_data, reindex, for_each. f_equal.
  apply list_fmap_ext. intros i r Hr.
  apply list_fmap_ext. intros j c Hc.
  etrans; [apply pivot_read|]. symmetry. etrans; [apply pivot_read|].
  symmetry. apply Hcells; by eapply list_elem_of_lookup_2.
Qed.

(** Only the rows of the cross table whose keys are both among the
    requested labels count: leaving the other rows out beforehand gives
    the same matrix. *)
Theorem create_heatmap_data_restrict (data : list T) row_items col_items :
  create_heatmap_data data row_col col_col value_col row_items col_items
    = create_heatmap_data
        (filter (λ x, row_col x ∈ row_items ∧ col_col x ∈ col_items) data)
        row_col col_col value_col row_items col_items.
Proof.
  apply matrix_eq. intros r c Hr Hc. unfold cell_at, group_at.
  rewrite list_filter_filter.
  rewrite (list_filter_iff
             (λ x, (row_col x = r ∧ col_col x = c)
                   ∧ row_col x ∈ row_items ∧ col_col x ∈ col_items)
             (λ x, row_col x = r ∧ col_col x = c)); [done|].
  intros x. split; [tauto|]. intros [<- <-]. tauto.
Qed.

(** A group of at most one row is the same list in every order of the
    rows of the table. *)
Lemma group_at_perm (data data' : list T) r c :
  NoDup ((λ x, (row_col x, col_col x)) <$> data) → data ≡ₚ data' →
  group_at data row_col col_col r c = group_at data' row_col col_col r c.
Proof.
  intros Hnd Hperm. unfold group_at.
  assert (filter (λ x, row_col x = r ∧ col_col x = c) data
          ≡ₚ filter (λ x, row_col x = r ∧ col_col x = c) data') as Hgroup
    by by rewrite Hperm.
  assert (length (filter (λ x, row_col x = r ∧ col_col x = c) data) ≤ 1)
    as Hlen.
  { destruct (filter _ data) as [|x g] eqn:Hg; [simpl; lia|].
    assert (x ∈ filter (λ x, row_col x = r ∧ col_col x = c) data) as Hx
      by (rewrite Hg; by left).
    apply list_elem_of_filter in Hx as [[<- <-] Hx].
    pose proof (group_at_unique data row_col col_col x Hnd Hx) as Huniq.
    unfold group_at in Huniq. rewrite Huniq in Hg.
    injection Hg as <-. simpl. lia. }
  destruct (filter _ data) as [|x [|y g]].
  - by apply Permutation_nil_l in Hgroup.
  - by apply Permutation_singleton_l in Hgroup.
  - simpl in Hlen. lia.
Qed.

(** For a cross table with at most one row for each pair of keys, the
    matrix does not depend on the order of the rows of the cross table. *)
Theorem create_heatmap_data_perm (data data' : list T) row_items col_items :
  NoDup ((λ x, (row_col x, col_col x)) <$> data) →
  data ≡ₚ data' →
  create_heatmap_data data row_col col_col value_col row_items col_items
    = create_heatmap_data data' row_col col_col value_col row_items col_items.
Proof.
  intros Hnd Hperm. apply matrix_eq. intros r c _ _. unfold cell_at.
  by rewrite (group_at_perm data data' r c Hnd Hperm).
Qed.
End heatmap_more.

Lemma create_heatmap_data_perm_witness :
  create_heatmap_data cross_example key2 key1 (Z.of_nat ∘ counts)
    [KStr (py "Z"); KStr (py "X")] [KInt 2021; KInt 2020]
  = create_heatmap_data (reverse cross_example) key2 key1 (Z.of_nat ∘ counts)
      [KStr (py "Z"); KStr (py "X")] [KInt 2021; KInt 2020].
Proof.
  apply (create_heatmap_data_perm key2 key1 (Z.of_nat ∘ counts)).
  - apply (bool_decide_unpack _). by vm_compute.
  - symmetry. apply reverse_Permutation.
Defined.

(** ** The colours *)

Lemma NoDup_COLORS : NoDup COLORS.
Proof. apply (bool_decide_unpack _). by vm_compute. Qed.

(** Up to twenty categories each category receives a colour of its own
    from [COLORS]; beyond twenty the colours are the first ones of
    [Dark24], whatever [Set3] is (the test on twelve is never reached with
    a true outcome), so there are no more of them than [Dark24] has. *)
Theorem get_colors_for_categories_cases (Set3 Dark24 : list pystr) (n : nat) :
  (n ≤ 20 →
   get_colors_for_categories Set3 Dark24 n = take n COLORS
   ∧ length (get_colors_for_categories Set3 Dark24 n) = n
   ∧ NoDup (get_colors_for_categories Set3 Dark24 n))
  ∧ (20 < n →
     get_colors_for_categories Set3 Dark24 n = take n Dark24
     ∧ length (get_colors_for_categories Set3 Dark24 n)
       = n `min` length Dark24).
Proof.
  unfold get_colors_for_categories.
  change (length COLORS) with 20. split; intros Hn.
  - rewrite decide_True by done. split_and!; [done|..].
    + rewrite length_take. change (length COLORS) with 20. lia.
    + pose proof NoDup_COLORS as Hnd.
      rewrite <- (take_drop n COLORS) in Hnd.
      by apply NoDup_app in Hnd as (? & _).
  - rewrite decide_False by lia. rewrite decide_False by lia.
    split; [done|]. apply length_take.
Qed.

Lemma get_colors_for_categories_cases_witness :
  length (get_colors_for_categories [] (replicate 24 (py "#2E91E5")) 7) = 7
  ∧ length (get_colors_for_categories [] (replicate 24 (py "#2E91E5")) 30)
    = 24.
Proof.
  split.
  - destruct (get_colors_for_categories_cases [] (replicate 24 (py "#2E91E5")) 7)
      as [Hsmall _].
    destruct Hsmall as (_ & Hlen & _); [lia|exact Hlen].
  - destruct (get_colors_for_categories_cases [] (replicate 24 (py "#2E91E5")) 30)
      as [_ Hlarge].
    destruct Hlarge as (_ & Hlen); [lia|exact Hlen].
Defined.

(** ** The statistics of the overview *)

Lemma length_distinct {A} `{EqDecision A} (l : list A) :
  length (distinct l) ≤ length l.
Proof.
  induction l as [|x l IH]; simpl; [done|].
  pose proof (length_filter (λ y, y ≠ x) (distinct l)). lia.
Qed.

Lemma foldr_min_le (y : Z) (ys : list Z) (z : Z) :
  z ∈ y :: ys → (foldr Z.min y ys ≤ z)%Z.
Proof.
  induction ys as [|x ys IH]; simpl.
  - intros ->%list_elem_of_singleton. lia.
  - intros [->|[->|Hz]%elem_of_cons]%elem_of_cons.
    + assert (foldr Z.min y ys ≤ y)%Z by (apply IH; by left). lia.
    + lia.
    + assert (foldr Z.min y ys ≤ z)%Z by (apply IH; by right). lia.
Qed.

Lemma foldr_max_ge (y : Z) (ys : list Z) (z : Z) :
  z ∈ y :: ys → (z ≤ foldr Z.max y ys)%Z.
Proof.
  induction ys as [|x ys IH]; simpl.
  - intros ->%list_elem_of_singleton. lia.
  - intros [->|[->|Hz]%elem_of_cons]%elem_of_cons.
    + assert (y ≤ foldr Z.max y ys)%Z by (apply IH; by left). lia.
    + lia.
    + assert (z ≤ foldr Z.max y ys)%Z by (apply IH; by right). lia.
Qed.

Lemma basic_statistics_inv df agg s :
  basic_statistics df agg = Some s →
  ∃ col y ys,
    get_column col_year df = Some col
    ∧ mapM int_of_year (distinct col) = Some (y :: ys)
    ∧ s = {| total_patents := length (rows df);
             min_year := foldr Z.min y ys;
             max_year := foldr Z.max y ys;
             year_span := length (distinct col);
             avg_patents_per_year :=
               length (rows df) `div` length (distinct col);
             unique_fi_count := length (fi_counts agg) |}.
Proof.
  unfold basic_statistics. intros H.
  destruct (get_column col_year df) as [col|]; [|done]. simpl in H.
  destruct (mapM int_of_year (distinct col)) as [[|y ys]|] eqn:Hnum;
    try done.
  simpl in H. injection H as <-. by exists col, y, ys.
Qed.

(** The years of a table whose distinct years are all integers. *)
Lemma int_years col numbers v :
  mapM int_of_year (distinct col) = Some numbers → v ∈ col →
  ∃ z, v = VInt z ∧ z ∈ numbers.
Proof.
  intros Hnum%mapM_Some_1 Hv. apply elem_of_distinct in Hv.
  apply list_elem_of_lookup in Hv as [i Hi].
  destruct (Forall2_lookup_l _ _ _ _ _ Hnum Hi) as (z & Hz & Hint).
  destruct v; try done. injection Hint as ->.
  eexists. split; [done|]. by eapply list_elem_of_lookup_2.
Qed.

Lemma statistics_facts df agg s :
  basic_statistics df agg = Some s →
  total_patents s = length (rows df)
  ∧ 1 ≤ year_span s ∧ year_span s ≤ total_patents s
  ∧ 1 ≤ avg_patents_per_year s
  ∧ avg_patents_per_year s * year_span s ≤ total_patents s
  ∧ total_patents s < (avg_patents_per_year s + 1) * year_span s
  ∧ ∀ row, row ∈ rows df →
      ∃ z, cell col_year row = VInt z
           ∧ (min_year s ≤ z)%Z ∧ (z ≤ max_year s)%Z.
Proof.
  intros (col & y & ys & Hcol & Hnum & ->)%basic_statistics_inv. simpl.
  apply get_column_Some in Hcol as [_ ->].
  pose proof (length_mapM _ _ _ Hnum) as Hlen. simpl in Hlen.
  pose proof (length_distinct (cell col_year <$> rows df)) as Hle.
  rewrite length_fmap in Hle.
  set (span := length (distinct (cell col_year <$> rows df))) in *.
  set (total := length (rows df)) in *.
  assert (1 ≤ span) by lia.
  pose proof (Nat.div_mod_eq total span).
  pose proof (Nat.mod_upper_bound total span).
  split_and!; try done; try nia.
  intros row Hrow.
  destruct (int_years _ _ (cell col_year row) Hnum) as (z & Hz & Hin).
  { by apply list_elem_of_fmap_2. }
  exists z. split_and!; [done|by apply foldr_min_le|by apply foldr_max_ge].
Qed.

(** ** What [main] computes *)

Section main_facts.
Variable to_datetime_year : list value → option (list (option Z)).

Lemma main_data_inv df d :
  main_data to_datetime_year df = Some d →
  missing_columns df = []
  ∧ preprocess_data to_datetime_year df = (df_processed d, Some ())
  ∧ ∃ df_applicants df_fi df_applicants_fi year_col numbers,
      expand_data (df_processed d)
        = Some (df_applicants, df_fi, df_applicants_fi)
      ∧ aggregate_data (df_processed d) df_applicants df_fi df_applicants_fi
        = Some (aggregated_data d)
      ∧ basic_statistics (df_processed d) (aggregated_data d)
        = Some (statistics d)
      ∧ get_column col_year (df_processed d) = Some year_col
      ∧ mapM int_of_year (distinct year_col) = Some numbers
      ∧ years_sorted d = KInt <$> merge_sort Z.le numbers
      ∧ applicant_year_matrix d
        = create_heatmap_data (year_top_applicant (aggregated_data d))
            key2 key1 (Z.of_nat ∘ counts)
            (top10_applicants (aggregated_data d)) (years_sorted d)
      ∧ fi_year_matrix d
        = create_heatmap_data (year_top_fi (aggregated_data d))
            key2 key1 (Z.of_nat ∘ counts)
            (top10_fi (aggregated_data d)) (years_sorted d)
      ∧ applicant_fi_matrix d
        = create_heatmap_data (top_applicant_top_fi (aggregated_data d))
            key1 key2 (Z.of_nat ∘ counts)
            (top10_applicants (aggregated_data d))
            (top10_fi (aggregated_data d)).
Proof.
  unfold main_data. intros H.
  case_decide as Hmissing; [done|].
  destruct (preprocess_data to_datetime_year df) as [dfp [[]|]]; [|done].
  destruct (expand_data dfp) as [[[a f] af]|] eqn:Hexp; [|done].
  simpl in H.
  destruct (aggregate_data dfp a f af) as [agg|] eqn:Hagg; [|done].
  simpl in H.
  destruct (basic_statistics dfp agg) as [s|] eqn:Hs; [|done].
  simpl in H.
  destruct (get_column col_year dfp) as [col|] eqn:Hcol; [|done].
  simpl in H.
  destruct (mapM int_of_year (distinct col)) as [numbers|] eqn:Hnum; [|done].
  simpl in H. injection H as <-. simpl.
  split; [done|]. split; [done|].
  by exists a, f, af, col, numbers.
Qed.

Lemma aggregate_data_fi_nonempty dfp df_applicants df_fi df_applicants_fi res :
  expand_data dfp = Some (df_applicants, df_fi, df_applicants_fi) →
  aggregate_data dfp df_applicants df_fi df_applicants_fi = Some res →
  1 ≤ length (fi_counts res).
Proof.
  intros (a & f & af & _ & Hf & _ & -> & -> & ->)%expand_data_inv Hagg.
  destruct (aggregate_data_inv _ _ _ _ _ Hagg) as (? & ? & ? & ? & _ & Hfi & _).
  destruct (get_column col_FI _) as [col|] eqn:Hcol; [|done].
  apply get_column_Some in Hcol as [Hin ->]. simpl in Hfi, Hin.
  apply elem_of_union_list in Hin as (X & HX & _).
  apply list_elem_of_fmap in HX as (new_row & _ & Hnew).
  destruct (mapM_mjoin_elem _ _ _ _ Hf Hnew) as (row & out & _ & Hout & Hnew').
  destruct (expand_fi_inv _ _ _ Hout Hnew') as (items & fi & _ & _ & Heq).
  assert (VStr (strip fi) ∈ cell col_FI <$> mjoin f) as Hcell.
  { apply list_elem_of_fmap. exists new_row.
    split; [by rewrite Heq, cell_insert|done]. }
  destruct (value_counts_string _ _ _ Hcell Hfi) as (n & _ & Hn).
  destruct (fi_counts res); [by apply elem_of_nil in Hn|simpl; lia].
Qed.

(** When [main] gets as far as the overview, the statistics are sound:
    the total is the number of records, the span is at least one year and
    at most the total, the average is at least 1 and is the quotient of
    the total by the span rounded down (no division by zero), every
    record lies between the first and the last year shown, and there is
    at least one classification code. *)
Theorem main_statistics df d :
  main_data to_datetime_year df = Some d →
  let s := statistics d in
  total_patents s = length (rows df)
  ∧ 1 ≤ year_span s ∧ year_span s ≤ total_patents s
  ∧ 1 ≤ avg_patents_per_year s
  ∧ avg_patents_per_year s * year_span s ≤ total_patents s
  ∧ total_patents s < (avg_patents_per_year s + 1) * year_span s
  ∧ (∀ row, row ∈ rows (df_processed d) →
       ∃ z, cell col_year row = VInt z
            ∧ (min_year s ≤ z)%Z ∧ (z ≤ max_year s)%Z)
  ∧ 1 ≤ unique_fi_count s.
Proof.
  intros (_ & Hpre & a & f & af & col & numbers
          & Hexp & Hagg & Hs & _)%main_data_inv s.
  destruct (statistics_facts _ _ _ Hs) as (Ht & ? & ? & ? & ? & ? & ?).
  destruct (preprocess_data_rows _ _ _ Hpre) as (? & _ & _ & Hrows & _).
  split_and!; try done.
  - subst s. rewrite Ht, Hrows. apply length_imap.
  - apply basic_statistics_inv in Hs as (? & ? & ? & _ & _ & Heq).
    subst s. rewrite Heq. simpl.
    by eapply aggregate_data_fi_nonempty.
Qed.

Lemma cell_year_normalize_row year row :
  cell col_year (normalize_row year row) = year.
Proof.
  unfold normalize_row, split_row.
  rewrite !cell_insert_ne by cols_differ. apply cell_insert.
Qed.

(** One record without a date is enough to stop [main]: the date is read
    as missing, the year of the record is missing, and the whole batch
    ends in the error branch however the rest of it looks. *)
Theorem missing_date_fails_main df years i :
  to_datetime_year (cell col_date <$> rows df) = Some years →
  years !! i = Some None → i < length (rows df) →
  main_data to_datetime_year df = None.
Proof.
  intros Hyears Hi Hlen. unfold main_data.
  case_decide; [done|].
  destruct (preprocess_data to_datetime_year df) as [dfp [[]|]] eqn:Hpre;
    [|done].
  assert (∀ agg, basic_statistics dfp agg = None) as Hstats.
  { intros agg. unfold basic_statistics.
    destruct (get_column col_year dfp) as [col|] eqn:Hcol; [|done].
    apply get_column_Some in Hcol as [_ ->]. simpl.
    rewrite (mapM_None_2 int_of_year); [done|].
    apply Exists_exists. exists VNaN. split; [|done].
    apply elem_of_distinct.
    destruct (preprocess_data_rows _ _ _ Hpre) as (years' & Hy & _ & Hrows & _).
    assert (years' = years) as -> by congruence.
    apply lookup_lt_is_Some_2 in Hlen as [row Hrow].
    apply list_elem_of_fmap.
    exists (normalize_row (default VNaN ((year_cell <$> years) !! i)) row).
    split.
    - rewrite cell_year_normalize_row, list_lookup_fmap, Hi. done.
    - apply (list_elem_of_lookup_2 _ i).
      by rewrite Hrows, list_lookup_imap, Hrow. }
  destruct (expand_data dfp) as [e|]; [|done]. simpl.
  destruct (aggregate_data _ _ _ _) as [agg|]; [|done]. simpl.
  by rewrite Hstats.
Qed.
End main_facts.

Lemma main_statistics_witness :
  ∃ d,
    main_data iso_years raw_example = Some d
    ∧ statistics d
      = {| total_patents := 3; min_year := 2020; max_year := 2021;
           year_span := 2; avg_patents_per_year := 1;
           unique_fi_count := 2 |}
    ∧ let s := statistics d in
      total_patents s = length (rows raw_example)
      ∧ 1 ≤ year_span s ∧ year_span s ≤ total_patents s
      ∧ 1 ≤ avg_patents_per_year s
      ∧ avg_patents_per_year s * year_span s ≤ total_patents s
      ∧ total_patents s < (avg_patents_per_year s + 1) * year_span s
      ∧ (∀ row, row ∈ rows (df_processed d) →
           ∃ z, cell col_year row = VInt z
                ∧ (min_year s ≤ z)%Z ∧ (z ≤ max_year s)%Z)
      ∧ 1 ≤ unique_fi_count s.
Proof.
  eexists. split; [vm_compute; reflexivity|].
  split; [reflexivity|].
  apply (main_statistics iso_years raw_example).
  vm_compute. reflexivity.
Defined.

Lemma missing_date_fails_main_witness :
  (preprocess_data iso_years undated_example).2 = Some ()
  ∧ main_data iso_years undated_example = None.
Proof.
  split; [reflexivity|].
  apply (missing_date_fails_main iso_years undated_example
           [Some 2020%Z; None] 1).
  - reflexivity.
  - reflexivity.
  - simpl. lia.
Defined.
